(** * Cross validation by hand: the two reference cells of
      [lectureDemo/lect10-examples/cross-validation.ipynb]

    The notebook holds two hand-written routines: cell [f6eda8ee], a k-fold
    cross validation of a linear regression, and cell [f306f94d], a search for
    the neighbourhood size of a standardised k-nearest-neighbour regressor.
    Both are embedded below as executable functions in an error monad; the
    library objects they call (numpy's generator, scikit-learn's estimators
    and scaler) enter through small interfaces.  The parameter sweeps of the
    kNN and CART notebooks follow in a section of their own.

    Numbers: a Python [int] is a [Z]; [len] and positions are [nat].  A
    float64 is idealised as an exact rational or NaN (type [float] below):
    rounding error and the infinities are outside the model. *)

From Stdlib Require Import List ZArith QArith Qround Qabs Bool Lia Lqa Arith.
From Stdlib Require Import Permutation.
Import ListNotations.

(** ** Python: exceptions and the exception monad *)

(** What a run of a cell can end with.  The last three are the error classes
    of the written specification; they are listed so that statements can name
    them. *)
Inductive exn : Type :=
  | ZeroDivisionError           (* [i % 0] *)
  | IndexError                  (* an index outside an array or list *)
  | ValueError                  (* [np.argmax] of an empty sequence; input
                                   validation of scikit-learn *)
  | NotFittedError              (* scikit-learn: used before [fit] *)
  | ConfigurationError
  | EmptyPartitionError
  | EmptyCandidateListError.

(** The exceptions scikit-learn raises on numeric arrays. *)
Inductive sk_exn : Type :=
  | SkValueError      (* e.g. an array with 0 samples *)
  | SkNotFitted.

Definition sk_raise (e : sk_exn) : exn :=
  match e with
  | SkValueError => ValueError
  | SkNotFitted => NotFittedError
  end.

Inductive result (A : Type) : Type :=
  | OK (a : A)
  | Err (e : exn).
Arguments OK {A} a.
Arguments Err {A} e.

Definition bind {A B : Type} (m : result A) (k : A -> result B) : result B :=
  match m with
  | OK a => k a
  | Err e => Err e
  end.

Notation "x <- m ;; k" := (bind m (fun x => k))
  (at level 61, m at next level, right associativity).
Notation "' pat <- m ;; k" := (bind m (fun x => match x with pat => k end))
  (at level 61, pat pattern, m at next level, right associativity).

(** A call into scikit-learn either returns or raises one of its own
    exceptions. *)
Definition sk_result (A : Type) : Type := (sk_exn + A)%type.

Definition call {A : Type} (r : sk_result A) : result A :=
  match r with
  | inr a => OK a
  | inl e => Err (sk_raise e)
  end.

(** A list comprehension [[ f(i) for i in xs ]] whose body may raise. *)
Fixpoint comprehension {A B : Type} (f : A -> result B) (xs : list A)
  : result (list B) :=
  match xs with
  | [] => OK []
  | x :: xs' =>
      v <- f x ;;
      vs <- comprehension f xs' ;;
      OK (v :: vs)
  end.

(** [range(n)] *)
Definition py_range (n : Z) : list Z :=
  map Z.of_nat (seq 0 (Z.to_nat n)).

(** [a % n] on integers: the remainder has the sign of [n]; [n = 0] raises. *)
Definition py_mod (a n : Z) : result Z :=
  if (n =? 0)%Z then Err ZeroDivisionError else OK (a mod n)%Z.

(** [xs[i]] on a Python list, for a position [i >= 0]. *)
Definition py_getitem {A : Type} (xs : list A) (i : nat) : result A :=
  match nth_error xs i with
  | Some x => OK x
  | None => Err IndexError
  end.

(** ** numpy *)

(** *** float64, idealised *)

Inductive float : Type :=
  | NaN
  | Fin (q : Q).

Definition isnan (x : float) : bool :=
  match x with NaN => true | Fin _ => false end.

(** [x <= y]: false as soon as one side is NaN. *)
Definition fle (x y : float) : bool :=
  match x, y with
  | Fin a, Fin b => Qle_bool a b
  | _, _ => false
  end.

Definition fadd (x y : float) : float :=
  match x, y with
  | Fin a, Fin b => Fin (a + b)%Q
  | _, _ => NaN
  end.

(** [np.sum] *)
Definition np_sum (a : list float) : float :=
  fold_left fadd a (Fin 0).

(** [np.mean]: the sum over the count; NaN (and a warning) on no elements. *)
Definition np_mean (a : list float) : float :=
  match a with
  | [] => NaN
  | _ :: _ =>
      match np_sum a with
      | NaN => NaN
      | Fin s => Fin (s / inject_Z (Z.of_nat (length a)))%Q
      end
  end.

(** [np.rint]: to the nearest integer, halves to the even neighbour. *)
Definition rint (q : Q) : Z :=
  let f := Qfloor q in
  match ((q - inject_Z f) ?= (1 # 2))%Q with
  | Lt => f
  | Gt => (f + 1)%Z
  | Eq => if Z.even f then f else (f + 1)%Z
  end.

(** [np.round(x, decimals)] for [decimals >= 0]:
    [rint(x * 10**decimals) / 10**decimals], here in exact arithmetic.
    Where float64 rounds the product onto a half (the float 0.0005 times
    1000 is 0.5 in float64 and a little more here) the last digit can differ
    by one, and float64 overflow has no counterpart. *)
Definition np_round (x : float) (decimals : nat) : float :=
  match x with
  | NaN => NaN
  | Fin q =>
      let p := inject_Z (10 ^ Z.of_nat decimals)%Z in
      Fin (inject_Z (rint (q * p)%Q) / p)%Q
  end.

(** *** argmax

    numpy's argmax over a float array: the running maximum [mp] is replaced
    by an element [x] when [not (x <= mp)]; a NaN counts as maximal and ends
    the scan. *)
Fixpoint argmax_scan (mp : float) (max_ind i : nat) (ip : list float) : nat :=
  match ip with
  | [] => max_ind
  | x :: ip' =>
      if negb (fle x mp)
      then if isnan x then i else argmax_scan x i (S i) ip'
      else argmax_scan mp max_ind (S i) ip'
  end.

(** [np.argmax(a)]; an empty sequence raises [ValueError]. *)
Definition np_argmax (a : list float) : result nat :=
  match a with
  | [] => Err ValueError
  | mp :: ip => if isnan mp then OK 0%nat else OK (argmax_scan mp 0 1 ip)
  end.

(** *** Boolean masks, [np.where] and indexing by an index array *)

(** [fold == i] and [fold != i], element by element. *)
Definition np_eq (fold : list Z) (i : Z) : list bool :=
  map (fun l => (l =? i)%Z) fold.
Definition np_ne (fold : list Z) (i : Z) : list bool :=
  map (fun l => negb (l =? i)%Z) fold.

Fixpoint where_from (i : nat) (cond : list bool) : list nat :=
  match cond with
  | [] => []
  | b :: cond' =>
      if b then i :: where_from (S i) cond' else where_from (S i) cond'
  end.

(** [np.where(cond)]: the positions at which [cond] holds, ascending. *)
Definition np_where (cond : list bool) : list nat := where_from 0 cond.

(** [a[idx]] for an index array [idx]: the rows of [a] at those positions;
    a position outside [a] raises [IndexError]. *)
Definition np_take {A : Type} (a : list A) (idx : list nat) : result (list A) :=
  comprehension (py_getitem a) idx.

(** *** The generator's in-place shuffle

    [Generator.shuffle] is a Fisher-Yates pass: for [i] from [n-1] down to 1
    it draws [j] in [0..i] and swaps positions [i] and [j].  The source of
    the draws is a parameter: [g k] stands for the [k]-th draw and is reduced
    into [0..i].  How numpy turns the raw words of its bit generator into an
    index in range (masking and rejection) is not modelled, so a [g] names a
    sequence of draws and not a seeded numpy generator; every sequence of
    in-range draws arises from some [g], and the properties below hold for
    every [g]. *)
Definition bitgen : Type := nat -> nat.

Definition random_interval (g : bitgen) (k max : nat) : nat :=
  (g k mod S max)%nat.

Fixpoint setitem {A : Type} (x : list A) (i : nat) (v : A) : list A :=
  match x, i with
  | [], _ => []
  | _ :: x', O => v :: x'
  | a :: x', S i' => a :: setitem x' i' v
  end.

Definition swap {A : Type} (x : list A) (i j : nat) : list A :=
  match nth_error x i, nth_error x j with
  | Some a, Some b => setitem (setitem x i b) j a
  | _, _ => x
  end.

Fixpoint shuffle_from {A : Type} (g : bitgen) (k i : nat) (x : list A) : list A :=
  match i with
  | O => x
  | S i' => shuffle_from g (S k) i' (swap x i (random_interval g k i))
  end.

(** [rng.shuffle(x)], returning the array as it is afterwards. *)
Definition rng_shuffle {A : Type} (g : bitgen) (x : list A) : list A :=
  shuffle_from g 0 (length x - 1) x.

(** ** scikit-learn: the interfaces the cells use *)

(** An estimator object.  [fit] trains the object it is called on and returns
    it; the outcome may depend on what the object held before.  [score]
    evaluates the object on rows and targets. *)
Class Estimator (fv tgt : Type) : Type := {
  estimator : Type;
  fit : estimator -> list fv -> list tgt -> sk_result estimator;
  score : estimator -> list fv -> list tgt -> sk_result float
}.

(** What a [StandardScaler] learns from rows (its [mean_] and [scale_]) and
    how it applies them. *)
Class Standardiser (fv : Type) : Type := {
  scaling : Type;
  learn : list fv -> sk_result scaling;
  rescale : scaling -> list fv -> sk_result (list fv)
}.

Section StandardScaler.
Context {fv : Type} {SS : Standardiser fv}.

(** The scaler object: its learned attributes, absent until the first fit. *)
Definition scaler_obj : Type := option scaling.

(** [StandardScaler()] *)
Definition StandardScaler (_ : unit) : scaler_obj := None.

(** [scaler.fit_transform(X)], that is [scaler.fit(X).transform(X)]: [fit]
    resets the object before it learns (scikit-learn's [fit] is [_reset]
    followed by [partial_fit]), so what the object held before plays no
    part; the rows are then transformed with the new attributes. *)
Definition fit_transform (scaler : scaler_obj) (X : list fv)
  : sk_result (scaler_obj * list fv) :=
  match learn X with
  | inl e => inl e
  | inr p =>
      match rescale p X with
      | inl e => inl e
      | inr Z => inr (Some p, Z)
      end
  end.

(** [scaler.transform(X)] *)
Definition transform (scaler : scaler_obj) (X : list fv)
  : sk_result (list fv) :=
  match scaler with
  | None => inl SkNotFitted
  | Some p => rescale p X
  end.
End StandardScaler.

(** ** Fold construction (both cells)

<<
    fold = np.array([ i % n_folds for i in range(len(X)) ])
    rng.shuffle(fold)
>>
    The notebook binds [n_folds = 10]; it is a parameter here. *)

Definition n_folds_of_notebook : Z := 10%Z.

Definition fold_labels (n_folds : Z) (N : nat) : result (list Z) :=
  comprehension (fun i => py_mod i n_folds) (py_range (Z.of_nat N)).

Definition fold_assignment (rng : bitgen) (n_folds : Z) (N : nat)
  : result (list Z) :=
  fold <- fold_labels n_folds N ;;
  OK (rng_shuffle rng fold).

(** The four arrays of one split:
    [X[np.where(fold != i)], X[np.where(fold == i)],
     y[np.where(fold != i)], y[np.where(fold == i)]]. *)
Definition split {fv tgt : Type} (X : list fv) (y : list tgt) (fold : list Z)
  (i : Z) : result (list fv * list fv * list tgt * list tgt) :=
  X_train <- np_take X (np_where (np_ne fold i)) ;;
  X_test <- np_take X (np_where (np_eq fold i)) ;;
  y_train <- np_take y (np_where (np_ne fold i)) ;;
  y_test <- np_take y (np_where (np_eq fold i)) ;;
  OK (X_train, X_test, y_train, y_test).

(** ** Cell [f6eda8ee]: cross validation of a linear regression *)

Section Cell_f6eda8ee.
Context {fv tgt : Type} {LR : Estimator fv tgt}.
Variable LinearRegression : unit -> estimator.

(** The body of [for i in range(n_folds)], run over the remaining fold ids
    with the list [perf] collected so far. *)
Fixpoint cv_loop (X : list fv) (y : list tgt) (fold : list Z)
  (ids : list Z) (perf : list float) : result (list float) :=
  match ids with
  | [] => OK perf
  | i :: ids' =>
      '(X_train, X_test, y_train, y_test) <- split X y fold i ;;
      mdl <- call (fit (LinearRegression tt) X_train y_train) ;;
      s <- call (score mdl X_test y_test) ;;
      cv_loop X y fold ids' (perf ++ [s])
  end.

(** The loop for a given fold array. *)
Definition cross_validate (n_folds : Z) (fold : list Z)
  (X : list fv) (y : list tgt) : result (list float) :=
  cv_loop X y fold (py_range n_folds) [].

(** What the cell prints after "... of linear regression is":
    [np.round(np.mean(perf), 3)]. *)
Definition cv_report (perf : list float) : float :=
  np_round (np_mean perf) 3.

(** The whole cell, from the generator and the two arrays. *)
Definition cross_validation (rng : bitgen) (n_folds : Z)
  (X : list fv) (y : list tgt) : result (list float * float) :=
  fold <- fold_assignment rng n_folds (length X) ;;
  perf <- cross_validate n_folds fold X y ;;
  OK (perf, cv_report perf).
End Cell_f6eda8ee.

(** ** Cell [f306f94d]: the search for the neighbourhood size *)

Record search_result : Type := {
  neighbourhood_perf : list float;
  best_neighbourhood : nat;
  best_k : Z;
  best_perf : float
}.

Section Cell_f306f94d.
Context {fv tgt : Type} {KNN : Estimator fv tgt} {SS : Standardiser fv}.
Variable KNeighborsRegressor : Z -> estimator.

(** The inner [for i in range(n_folds)]; the one [scaler] object made
    before the loops is passed from iteration to iteration. *)
Fixpoint fold_loop (X : list fv) (y : list tgt) (fold : list Z) (k : Z)
  (ids : list Z) (scaler : scaler_obj) (perf : list float)
  : result (scaler_obj * list float) :=
  match ids with
  | [] => OK (scaler, perf)
  | i :: ids' =>
      '(X_train, X_test, y_train, y_test) <- split X y fold i ;;
      '(scaler1, Z_train) <- call (fit_transform scaler X_train) ;;
      Z_test <- call (transform scaler1 X_test) ;;
      mdl <- call (fit (KNeighborsRegressor k) Z_train y_train) ;;
      s <- call (score mdl Z_test y_test) ;;
      fold_loop X y fold k ids' scaler1 (perf ++ [s])
  end.

(** The outer [for i, k in enumerate(candidate_neighbourhoods)]. *)
Fixpoint candidate_loop (X : list fv) (y : list tgt) (fold : list Z)
  (n_folds : Z) (candidates : list Z) (scaler : scaler_obj)
  (nperf : list float) : result (scaler_obj * list float) :=
  match candidates with
  | [] => OK (scaler, nperf)
  | k :: candidates' =>
      '(scaler1, perf) <- fold_loop X y fold k (py_range n_folds) scaler [] ;;
      candidate_loop X y fold n_folds candidates' scaler1
        (nperf ++ [np_mean perf])
  end.

(** From the loops' result to the three "best" values. *)
Definition select_best (candidate_neighbourhoods : list Z)
  (nperf : list float) : result search_result :=
  best <- np_argmax nperf ;;
  k <- py_getitem candidate_neighbourhoods best ;;
  p <- py_getitem nperf best ;;
  OK {| neighbourhood_perf := nperf; best_neighbourhood := best;
        best_k := k; best_perf := p |}.

(** The search for a given fold array. *)
Definition search_with (n_folds : Z) (fold : list Z)
  (candidate_neighbourhoods : list Z) (X : list fv) (y : list tgt)
  : result search_result :=
  '(_, nperf) <- candidate_loop X y fold n_folds candidate_neighbourhoods
                   (StandardScaler tt) [] ;;
  select_best candidate_neighbourhoods nperf.

(** The whole cell. *)
Definition hyperparameter_search (rng : bitgen) (n_folds : Z)
  (candidate_neighbourhoods : list Z) (X : list fv) (y : list tgt)
  : result search_result :=
  fold <- fold_assignment rng n_folds (length X) ;;
  search_with n_folds fold candidate_neighbourhoods X y.

(** What the cell prints: [best_k] and [np.round(best_perf, 3)]. *)
Definition search_report (r : search_result) : Z * float :=
  (best_k r, np_round (best_perf r) 3).
End Cell_f306f94d.

(** The candidate list of the notebook. *)
Definition candidate_neighbourhoods_of_notebook : list Z :=
  [1; 3; 5; 7; 9; 11; 31; 51; 71; 91; 101; 201]%Z.


(** ** Small estimators on rational rows, for running the cells on examples *)

Module Toy.
Definition qsum (l : list Q) : Q := fold_right Qplus 0 l.

Definition qmean (l : list Q) : Q :=
  Qred (qsum l / inject_Z (Z.of_nat (length l))).

(** Minus the sum of squared errors of predicting [c] for every target. *)
Definition neg_sse (c : Q) (y : list Q) : Q :=
  Qred (- qsum (map (fun t => (t - c) * (t - c)) y)).

(** Predicts the mean of its training targets and, as scikit-learn's input
    validation does, rejects an array with 0 samples. *)
Definition MeanRegressor : Estimator Q Q := {|
  estimator := option Q;
  fit := fun _ _ y =>
    match y with
    | [] => inl SkValueError
    | _ :: _ => inr (Some (qmean y))
    end;
  score := fun m _ y =>
    match m, y with
    | None, _ => inl SkNotFitted
    | Some _, [] => inl SkValueError
    | Some c, _ :: _ => inr (Fin (neg_sse c y))
    end
|}.

(** The same regressor without the validation: no rows score 0. *)
Definition LenientRegressor : Estimator Q Q := {|
  estimator := option Q;
  fit := fun _ _ y => inr (Some (qmean y));
  score := fun m _ y =>
    match m with
    | None => inl SkNotFitted
    | Some c => inr (Fin (neg_sse c y))
    end
|}.

(** Predicts the mean of the first [n_neighbors] training targets. *)
Definition FirstK : Estimator Q Q := {|
  estimator := nat * option Q;
  fit := fun m _ y => inr (fst m, Some (qmean (firstn (fst m) y)));
  score := fun m _ y =>
    match snd m with
    | None => inl SkNotFitted
    | Some c => inr (Fin (neg_sse c y))
    end
|}.

(** Its constructor; a neighbourhood size below 1 counts as 1. *)
Definition FirstK_new (k : Z) : nat * option Q :=
  (Z.to_nat (Z.max 1 k), None).

(** A scaler that centres the rows on the mean it learned. *)
Definition Centre : Standardiser Q := {|
  scaling := Q;
  learn := fun X => inr (qmean X);
  rescale := fun c X => inr (map (fun x => Qred (x - c)) X)
|}.
End Toy.


(** ** The parameter sweeps of the kNN and CART notebooks

    [lect05-examples/knn_classification.ipynb] and the two notebooks of
    [lect07-examples] each try every value of one hyperparameter, collect
    one score per value and pick a position with [np.argmax] or
    [np.argmin]; a later cell reads the value and the score at it. *)

(** [np.arange(start, stop)] on integers. *)
Definition np_arange (start stop : Z) : list Z :=
  map (fun i => (start + Z.of_nat i)%Z) (seq 0 (Z.to_nat (stop - start))).

(** numpy's argmin over a float array, the mirror image of its argmax: the
    running minimum [mp] is replaced by [x] when [not (mp <= x)]; a NaN
    counts as minimal and ends the scan. *)
Fixpoint argmin_scan (mp : float) (min_ind i : nat) (ip : list float) : nat :=
  match ip with
  | [] => min_ind
  | x :: ip' =>
      if negb (fle mp x)
      then if isnan x then i else argmin_scan x i (S i) ip'
      else argmin_scan mp min_ind (S i) ip'
  end.

(** [np.argmin(a)]; an empty sequence raises [ValueError]. *)
Definition np_argmin (a : list float) : result nat :=
  match a with
  | [] => Err ValueError
  | mp :: ip => if isnan mp then OK 0%nat else OK (argmin_scan mp 0 1 ip)
  end.

Module Sweep.

(** A scikit-learn model used through [fit] and [predict]. *)
Class Model (fv lbl : Type) : Type := {
  model : Type;
  fit : model -> list fv -> list lbl -> sk_result model;
  predict : model -> list fv -> sk_result (list lbl)
}.

(** What the cells leave behind: the list of scores, the position picked,
    and the value and the score the plotting cell reads at that position. *)
Record outcome : Type := {
  scores : list float;
  best : nat;
  value_at_best : Z;
  score_at_best : float
}.

Section Cells.
Context {fv lbl : Type} {M : Model fv lbl}.

(** The constructor with the swept hyperparameter, [KNeighborsClassifier(
    n_neighbors=k)] or [DecisionTree...(random_state=0, min_samples_split=k)],
    and the metric, [accuracy_score] or [mean_squared_error]. *)
Variable construct : Z -> model.
Variable metric : list lbl -> list lbl -> sk_result float.

(** The body of [for k in all_k], over the remaining values:
<<
    mdl = construct(k)
    mdl.fit(X_train, y_train)
    acc.append(metric(y, mdl.predict(X)))
>> *)
Fixpoint loop (X_train : list fv) (y_train : list lbl) (X : list fv)
  (y : list lbl) (ks : list Z) (acc : list float) : result (list float) :=
  match ks with
  | [] => OK acc
  | k :: ks' =>
      mdl <- call (fit (construct k) X_train y_train) ;;
      y_pred <- call (predict mdl X) ;;
      s <- call (metric y y_pred) ;;
      loop X_train y_train X y ks' (acc ++ [s])
  end.

(** A sweep over [np.arange(start, n_points + 1)] with the position picked
    by [select], followed by the two reads [all_k[best]] and [acc[best]]. *)
Definition sweep (start : Z) (select : list float -> result nat)
  (n_points : Z) (X_train : list fv) (y_train : list lbl) (X : list fv)
  (y : list lbl) : result outcome :=
  let all_k := np_arange start (n_points + 1) in
  acc <- loop X_train y_train X y all_k [] ;;
  best_k <- select acc ;;
  k <- py_getitem all_k best_k ;;
  a <- py_getitem acc best_k ;;
  OK {| scores := acc; best := best_k; value_at_best := k;
        score_at_best := a |}.

(** kNN: [all_k = np.arange(1, n_points+1)], [best_k = np.argmax(acc)]. *)
Definition knn_sweep : Z -> list fv -> list lbl -> list fv -> list lbl ->
                       result outcome :=
  sweep 1 np_argmax.

(** CART classification: [all_split = np.arange(2, n_points + 1)],
    [best_split = np.argmax(split_loss)]. *)
Definition cart_classification_sweep : Z -> list fv -> list lbl ->
                                       list fv -> list lbl -> result outcome :=
  sweep 2 np_argmax.

(** CART regression: [all_split = np.arange(2, n_points + 1)],
    [best_split = np.argmin(split_loss)]. *)
Definition cart_regression_sweep : Z -> list fv -> list lbl ->
                                   list fv -> list lbl -> result outcome :=
  sweep 2 np_argmin.

(** One pass of the loop body for the value [k]. *)
Definition evaluate (X_train : list fv) (y_train : list lbl) (X : list fv)
  (y : list lbl) (k : Z) : result float :=
  mdl <- call (fit (construct k) X_train y_train) ;;
  y_pred <- call (predict mdl X) ;;
  call (metric y y_pred).
End Cells.

(** The panels of the comparison figures: [plt.subplots(2, 3)] gives a 2 by
    3 array [ax], and the [i]-th setting is drawn on [ax[r, c]] with
    [r = i // 3] and [c = i % 3]. *)
Definition ax_getitem (r c : nat) : result (nat * nat) :=
  if (r <? 2)%nat && (c <? 3)%nat then OK (r, c) else Err IndexError.

Definition panel (i : nat) : result (nat * nat) :=
  let r := (i / 3)%nat in
  let c := (i mod 3)%nat in
  ax_getitem r c.

(** The panels visited by [for (i, k) in enumerate(settings)]. *)
Definition panels {A : Type} (settings : list A) : result (list (nat * nat)) :=
  comprehension panel (seq 0 (length settings)).

(** A classifier by threshold on an integer feature, and the two metrics on
    integer labels, for running the sweeps on examples. *)
Definition Threshold : Model Z Z := {|
  model := Z;
  fit := fun m _ _ => inr m;
  predict := fun m X => inr (map (fun x => if (x <? m)%Z then 0 else 1)%Z X)
|}.

Definition agreement (y p : list Z) : Z :=
  Z.of_nat (length (filter (fun yp => (fst yp =? snd yp)%Z) (combine y p))).

Definition accuracy (y p : list Z) : sk_result float :=
  if (length y =? length p)%nat
  then inr (Fin (agreement y p # Pos.of_nat (length y)))
  else inl SkValueError.

Definition misses (y p : list Z) : sk_result float :=
  if (length y =? length p)%nat
  then inr (Fin ((Z.of_nat (length y) - agreement y p)
                 # Pos.of_nat (length y)))
  else inl SkValueError.
End Sweep.
(** ** Vocabulary of the statements *)

(** The labels as a plain list, for a fold count other than 0. *)
Definition labels (K : Z) (N : nat) : list Z :=
  map (fun i => (Z.of_nat i mod K)%Z) (seq 0 N).

(** The size of fold [f]: how often the label occurs. *)
Definition fold_size (fold : list Z) (f : Z) : nat :=
  count_occ Z.eq_dec fold f.

(** The rows of [a] whose fold label satisfies [p] (labels and rows are
    matched by position). *)
Definition rows_where {A : Type} (p : Z -> bool) (fold : list Z) (a : list A)
  : list A :=
  map snd (filter (fun la => p (fst la)) (combine fold a)).

(** Training rows of fold [f]: label other than [f].  Test rows: label [f]. *)
Definition training_rows {A : Type} (fold : list Z) (f : Z) (a : list A)
  : list A :=
  rows_where (fun l => negb (l =? f)%Z) fold a.

Definition test_rows {A : Type} (fold : list Z) (f : Z) (a : list A)
  : list A :=
  rows_where (fun l => (l =? f)%Z) fold a.

(** One round of "fit the object [mdl0] on the training arrays, then score
    it on the test arrays". *)
Definition fit_and_score {fv tgt : Type} {E : Estimator fv tgt}
  (mdl0 : estimator) (X_train X_test : list fv) (y_train y_test : list tgt)
  : result float :=
  mdl <- call (fit mdl0 X_train y_train) ;;
  call (score mdl X_test y_test).

(** The three error classes of the specification's taxonomy. *)
Definition in_taxonomy (e : exn) : bool :=
  match e with
  | ConfigurationError | EmptyPartitionError | EmptyCandidateListError => true
  | _ => false
  end.

(** A computation that can only end in an exception of Python or of the
    libraries. *)
Definition python_only {A : Type} (r : result A) : Prop :=
  forall e, r = Err e -> in_taxonomy e = false.

(** The sum of rational scores, added left to right from 0. *)
Definition total (qs : list Q) : Q := fold_left Qplus qs 0.

(** The specification's two aggregates over per-fold scores: the arithmetic
    mean, and the standard deviation, given here through its square, the
    mean squared deviation from the mean. *)
Definition spec_mean (qs : list Q) : Q :=
  total qs / inject_Z (Z.of_nat (length qs)).


(** One round of the search: learn the scaling from the training rows,
    apply it to the training rows and to the test rows, then fit the object
    [mdl0] and score it. *)
Definition standardised_round {fv tgt : Type} {E : Estimator fv tgt}
  {SS : Standardiser fv} (mdl0 : estimator) (X_train X_test : list fv)
  (y_train y_test : list tgt) : result float :=
  p <- call (learn X_train) ;;
  Z_train <- call (rescale p X_train) ;;
  Z_test <- call (rescale p X_test) ;;
  fit_and_score mdl0 Z_train Z_test y_train y_test.

(** The aggregate of one candidate over a fold array: the mean over the
    fold ids of the rounds' scores. *)
Definition candidate_score {fv tgt : Type} {E : Estimator fv tgt}
  {SS : Standardiser fv} (mdl0 : estimator) (K : Z) (fold : list Z)
  (X : list fv) (y : list tgt) : result float :=
  perf <- comprehension
            (fun f => standardised_round mdl0
                        (training_rows fold f X) (test_rows fold f X)
                        (training_rows fold f y) (test_rows fold f y))
            (py_range K) ;;
  OK (np_mean perf).

(** The scores of a loop, without the scaler object it hands on. *)
Definition scores_of {S A : Type} (r : result (S * A)) : result A :=
  x <- r ;; OK (snd x).

(** A score that is a number. *)
Definition finite (x : float) : Prop := isnan x = false.

(** The specification's selection rule: a direction chosen by the caller,
    the best aggregate in that direction, the first of several equal ones. *)
Inductive direction : Type :=
  | HigherIsBetter
  | LowerIsBetter.

Definition spec_better (d : direction) (a b : float) : bool :=
  match d with
  | HigherIsBetter => negb (fle a b)
  | LowerIsBetter => negb (fle b a)
  end.

Fixpoint spec_select_from (d : direction) (best : float) (best_i i : nat)
  (scores : list float) : nat :=
  match scores with
  | [] => best_i
  | s :: scores' =>
      if spec_better d s best
      then spec_select_from d s i (S i) scores'
      else spec_select_from d best best_i (S i) scores'
  end.

Definition spec_select (d : direction) (scores : list float) : option nat :=
  match scores with
  | [] => None
  | s :: scores' => Some (spec_select_from d s 0 1 scores')
  end.

(** [Pipeline([('scaler', StandardScaler()), ('model', m)])], the object the
    notebook builds as [zknn_pipe], as an estimator: [fit] is the scaler's
    [fit_transform] followed by the model's [fit] on the transformed rows;
    [score] is the scaler's [transform] followed by the model's [score]. *)
Definition Pipeline {fv tgt : Type} (SS : Standardiser fv)
  (E : Estimator fv tgt) : Estimator fv tgt := {|
  estimator := (@scaler_obj fv SS * @estimator fv tgt E)%type;
  fit := fun pipe X y =>
    match fit_transform (fst pipe) X with
    | inl e => inl e
    | inr (scaler1, Z) =>
        match fit (snd pipe) Z y with
        | inl e => inl e
        | inr mdl => inr (scaler1, mdl)
        end
    end;
  score := fun pipe X y =>
    match transform (fst pipe) X with
    | inl e => inl e
    | inr Z => score (snd pipe) Z y
    end
|}.

(** The negation of a score; NaN stays NaN. *)
Definition fneg (x : float) : float :=
  match x with
  | NaN => NaN
  | Fin q => Fin (- q)
  end.

(** * Properties *)

(** ** The exception monad and comprehensions *)

Lemma comprehension_map {A B : Type} (f : A -> result B) (g : A -> B)
  (xs : list A) :
  (forall x, In x xs -> f x = OK (g x)) ->
  comprehension f xs = OK (map g xs).
Proof.
  induction xs as [|x xs IH]; intros H; simpl.
  - reflexivity.
  - rewrite (H x (or_introl eq_refl)). simpl.
    rewrite IH by (intros; apply H; now right). reflexivity.
Qed.

Lemma comprehension_raises {A B : Type} (f : A -> result B) (e : exn)
  (xs : list A) :
  xs <> [] -> (forall x, In x xs -> f x = Err e) ->
  comprehension f xs = Err e.
Proof.
  destruct xs as [|x xs]; intros Hne H; [congruence|].
  simpl. now rewrite (H x (or_introl eq_refl)).
Qed.

Lemma comprehension_ext {A B : Type} (f g : A -> result B) (xs : list A) :
  (forall x, f x = g x) -> comprehension f xs = comprehension g xs.
Proof.
  intros H. induction xs as [|x xs IH]; simpl; [reflexivity|].
  now rewrite H, IH.
Qed.

Lemma comprehension_length {A B : Type} (f : A -> result B) (xs : list A)
  (vs : list B) :
  comprehension f xs = OK vs -> length vs = length xs.
Proof.
  revert vs. induction xs as [|x xs IH]; intros vs H; simpl in H.
  - injection H as <-. reflexivity.
  - destruct (f x) as [v|e]; simpl in H; [|discriminate].
    destruct (comprehension f xs) as [vs'|e]; simpl in H; [|discriminate].
    injection H as <-. simpl. now rewrite (IH vs' eq_refl).
Qed.

Lemma comprehension_nth {A B : Type} (f : A -> result B) (xs : list A)
  (vs : list B) (n : nat) (x : A) :
  comprehension f xs = OK vs -> nth_error xs n = Some x ->
  exists v, f x = OK v /\ nth_error vs n = Some v.
Proof.
  revert vs n. induction xs as [|x0 xs IH]; intros vs n H Hn.
  - destruct n; discriminate.
  - simpl in H.
    destruct (f x0) as [v0|e] eqn:Hf; simpl in H; [|discriminate].
    destruct (comprehension f xs) as [vs'|e]; simpl in H; [|discriminate].
    injection H as <-. destruct n as [|n]; simpl in Hn.
    + injection Hn as <-. exists v0. now split.
    + apply (IH vs' n eq_refl Hn).
Qed.

Lemma comprehension_total {A B : Type} (f : A -> result B) (xs : list A) :
  (forall x, In x xs -> exists v, f x = OK v) ->
  exists vs, comprehension f xs = OK vs.
Proof.
  induction xs as [|x xs IH]; intros H; simpl.
  - now exists [].
  - destruct (H x (or_introl eq_refl)) as [v ->].
    destruct IH as [vs ->]; [intros; apply H; now right|].
    now exists (v :: vs).
Qed.

Lemma py_range_of_nat (N : nat) :
  py_range (Z.of_nat N) = map Z.of_nat (seq 0 N).
Proof. unfold py_range. now rewrite Nat2Z.id. Qed.

Lemma length_py_range (n : Z) : length (py_range n) = Z.to_nat n.
Proof. unfold py_range. now rewrite length_map, length_seq. Qed.

Lemma in_py_range (n i : Z) : In i (py_range n) <-> (0 <= i < n)%Z.
Proof.
  unfold py_range. rewrite in_map_iff. split.
  - intros (k & <- & Hk). apply in_seq in Hk. lia.
  - intros H. exists (Z.to_nat i). split; [lia|]. apply in_seq. lia.
Qed.

(** ** Fold labels before the shuffle *)

Lemma fold_labels_nonzero (K : Z) (N : nat) :
  K <> 0%Z -> fold_labels K N = OK (labels K N).
Proof.
  intros HK. unfold fold_labels, labels.
  rewrite py_range_of_nat.
  rewrite (comprehension_map _ (fun i => (i mod K)%Z)).
  - now rewrite map_map.
  - intros x _. unfold py_mod.
    destruct (Z.eqb_spec K 0); [contradiction|reflexivity].
Qed.

Lemma fold_labels_zero (N : nat) :
  N <> 0%nat -> fold_labels 0 N = Err ZeroDivisionError.
Proof.
  intros HN. unfold fold_labels. apply comprehension_raises.
  - rewrite py_range_of_nat. destruct N; [contradiction|discriminate].
  - reflexivity.
Qed.

Lemma length_labels (K : Z) (N : nat) : length (labels K N) = N.
Proof. unfold labels. now rewrite length_map, length_seq. Qed.

Lemma nth_error_labels (K : Z) (N i : nat) :
  (i < N)%nat -> nth_error (labels K N) i = Some (Z.of_nat i mod K)%Z.
Proof.
  intros Hi. unfold labels.
  rewrite nth_error_map, nth_error_seq.
  destruct (Nat.ltb_spec i N); [reflexivity|lia].
Qed.

Lemma labels_S (K : Z) (N : nat) :
  labels K (S N) = labels K N ++ [(Z.of_nat N mod K)%Z].
Proof. unfold labels. now rewrite seq_S, map_app. Qed.

Lemma labels_range (K : Z) (N : nat) (l : Z) :
  (0 < K)%Z -> In l (labels K N) -> (0 <= l < K)%Z.
Proof.
  intros HK Hin. unfold labels in Hin. apply in_map_iff in Hin.
  destruct Hin as (i & <- & _). apply Z.mod_pos_bound. exact HK.
Qed.

(** With [N = q * K + r] and [0 <= r < K], every fold holds [q] instances
    and the first [r] folds one more. *)
Lemma fold_size_labels (K : Z) (N : nat) :
  (0 < K)%Z ->
  exists q r : Z,
    (0 <= q)%Z /\ (0 <= r < K)%Z /\ Z.of_nat N = (q * K + r)%Z /\
    forall f, (0 <= f < K)%Z ->
      Z.of_nat (fold_size (labels K N) f)
      = (q + if (f <? r)%Z then 1 else 0)%Z.
Proof.
  intros HK. induction N as [|N (q & r & Hq & Hr & HN & Hc)].
  - exists 0%Z, 0%Z. repeat split; try lia.
    intros f Hf. simpl. destruct (Z.ltb_spec f 0); lia.
  - assert (Hmod : (Z.of_nat N mod K)%Z = r).
    { symmetry. apply (Zmod_unique _ _ q); lia. }
    destruct (Z_lt_ge_dec (r + 1)%Z K) as [Hlt|Hge].
    + exists q, (r + 1)%Z. repeat split; try lia.
      intros f Hf. rewrite labels_S. unfold fold_size in *.
      rewrite count_occ_app, Nat2Z.inj_add, (Hc f Hf), Hmod. simpl.
      destruct (Z.eq_dec r f), (Z.ltb_spec f r), (Z.ltb_spec f (r + 1)); lia.
    + exists (q + 1)%Z, 0%Z. repeat split; try lia.
      intros f Hf. rewrite labels_S. unfold fold_size in *.
      rewrite count_occ_app, Nat2Z.inj_add, (Hc f Hf), Hmod. simpl.
      destruct (Z.eq_dec r f), (Z.ltb_spec f r), (Z.ltb_spec f 0); lia.
Qed.

(** ** The shuffle permutes *)

Lemma setitem_perm {A : Type} (x : list A) (i : nat) (a v : A) :
  nth_error x i = Some a ->
  Permutation (v :: x) (a :: setitem x i v).
Proof.
  revert i. induction x as [|b x IH]; intros [|i] H; simpl in *;
    try discriminate.
  - injection H as ->. apply perm_swap.
  - eapply perm_trans; [apply perm_swap|].
    eapply perm_trans; [apply perm_skip, (IH i H)|]. apply perm_swap.
Qed.

Lemma nth_error_setitem_value {A : Type} (x : list A) (i j : nat) (b : A) :
  nth_error x j = Some b -> nth_error (setitem x i b) j = Some b.
Proof.
  revert i j. induction x as [|a x IH]; intros [|i] [|j] H; simpl in *;
    try discriminate; auto.
Qed.

Lemma swap_perm {A : Type} (x : list A) (i j : nat) :
  Permutation x (swap x i j).
Proof.
  unfold swap.
  destruct (nth_error x i) as [a|] eqn:Hi; [|reflexivity].
  destruct (nth_error x j) as [b|] eqn:Hj; [|reflexivity].
  apply (Permutation_cons_inv (a := b)).
  eapply perm_trans; [apply (setitem_perm x i a b Hi)|].
  apply setitem_perm. now apply nth_error_setitem_value.
Qed.

Lemma shuffle_from_perm {A : Type} (g : bitgen) (i k : nat) (x : list A) :
  Permutation x (shuffle_from g k i x).
Proof.
  revert k x. induction i as [|i IH]; intros k x; simpl.
  - reflexivity.
  - eapply perm_trans; [apply swap_perm|apply IH].
Qed.

Lemma rng_shuffle_perm {A : Type} (g : bitgen) (x : list A) :
  Permutation x (rng_shuffle g x).
Proof. apply shuffle_from_perm. Qed.

Lemma fold_size_perm (fold fold' : list Z) (f : Z) :
  Permutation fold fold' -> fold_size fold f = fold_size fold' f.
Proof. intros H. unfold fold_size. now apply Permutation_count_occ. Qed.

(** ** Splitting by fold label *)

Lemma skipn_nth_error {A : Type} (a : list A) (i : nat) :
  (i < length a)%nat ->
  exists x, nth_error a i = Some x /\ skipn i a = x :: skipn (S i) a.
Proof.
  revert i. induction a as [|x a IH]; intros i Hi; simpl in Hi; [lia|].
  destruct i as [|i].
  - exists x. now split.
  - destruct (IH i) as (z & Hz & Hs); [lia|]. exists z. now split.
Qed.

Lemma np_take_where_from {A : Type} (a : list A) (cond : list bool) (i : nat) :
  (i + length cond <= length a)%nat ->
  np_take a (where_from i cond)
  = OK (map snd (filter fst (combine cond (skipn i a)))).
Proof.
  revert i. induction cond as [|b cond IH]; intros i H; simpl in *.
  - reflexivity.
  - destruct (skipn_nth_error a i) as (x & Hx & ->); [lia|].
    specialize (IH (S i)). unfold np_take in *.
    destruct b; simpl.
    + unfold py_getitem at 1. rewrite Hx. simpl.
      rewrite IH by lia. reflexivity.
    + apply IH. lia.
Qed.

Lemma filter_combine_map {A : Type} (p : Z -> bool) (fold : list Z)
  (a : list A) :
  map snd (filter fst (combine (map p fold) a))
  = map snd (filter (fun la => p (fst la)) (combine fold a)).
Proof.
  revert a. induction fold as [|l fold IH]; intros [|x a]; simpl; auto.
  destruct (p l); simpl; now rewrite IH.
Qed.

Lemma np_take_mask {A : Type} (p : Z -> bool) (fold : list Z) (a : list A) :
  length fold = length a ->
  np_take a (np_where (map p fold)) = OK (rows_where p fold a).
Proof.
  intros H. unfold np_where, rows_where.
  rewrite np_take_where_from by (rewrite length_map; simpl; lia).
  simpl. now rewrite filter_combine_map.
Qed.

Lemma split_ok {fv tgt : Type} (X : list fv) (y : list tgt) (fold : list Z)
  (i : Z) :
  length fold = length X -> length y = length X ->
  split X y fold i
  = OK (training_rows fold i X, test_rows fold i X,
        training_rows fold i y, test_rows fold i y).
Proof.
  intros HX Hy. unfold split, np_ne, np_eq, training_rows, test_rows.
  rewrite !np_take_mask by congruence. reflexivity.
Qed.

(** The two parts of a split are the whole array again, up to order. *)
Lemma split_is_partition {A : Type} (fold : list Z) (f : Z) (a : list A) :
  length fold = length a ->
  Permutation (training_rows fold f a ++ test_rows fold f a) a.
Proof.
  unfold training_rows, test_rows, rows_where.
  revert a. induction fold as [|l fold IH]; intros [|x a] H; simpl in *;
    try discriminate.
  - constructor.
  - injection H as H. specialize (IH a H).
    destruct (Z.eqb_spec l f); simpl.
    + eapply perm_trans; [apply Permutation_sym, Permutation_middle|].
      now apply perm_skip.
    + now apply perm_skip.
Qed.

Lemma length_test_rows {A : Type} (fold : list Z) (f : Z) (a : list A) :
  length fold = length a ->
  length (test_rows fold f a) = fold_size fold f.
Proof.
  unfold test_rows, rows_where, fold_size.
  revert a. induction fold as [|l fold IH]; intros [|x a] H; simpl in *;
    try discriminate; auto.
  injection H as H. specialize (IH a H).
  destruct (Z.eqb_spec l f), (Z.eq_dec l f); simpl; congruence.
Qed.

(** ** No path constructs an error of the specification's taxonomy *)

Lemma python_only_OK {A : Type} (a : A) : python_only (OK a).
Proof. intros e H. discriminate. Qed.

Lemma python_only_bind {A B : Type} (m : result A) (k : A -> result B) :
  python_only m -> (forall a, python_only (k a)) -> python_only (bind m k).
Proof.
  intros Hm Hk e H. destruct m as [a|e']; simpl in H.
  - exact (Hk a e H).
  - apply Hm. congruence.
Qed.

Lemma python_only_call {A : Type} (r : sk_result A) : python_only (call r).
Proof.
  intros e H. destruct r as [s|a]; simpl in H; [|discriminate].
  injection H as <-. now destruct s.
Qed.

Lemma python_only_py_mod (a n : Z) : python_only (py_mod a n).
Proof.
  intros e H. unfold py_mod in H.
  destruct (n =? 0)%Z; [|discriminate]. now injection H as <-.
Qed.

Lemma python_only_py_getitem {A : Type} (xs : list A) (i : nat) :
  python_only (py_getitem xs i).
Proof.
  intros e H. unfold py_getitem in H.
  destruct (nth_error xs i); [discriminate|]. now injection H as <-.
Qed.

Lemma python_only_comprehension {A B : Type} (f : A -> result B)
  (xs : list A) :
  (forall x, python_only (f x)) -> python_only (comprehension f xs).
Proof.
  intros Hf. induction xs as [|x xs IH]; simpl.
  - apply python_only_OK.
  - apply python_only_bind; [apply Hf|]. intros v.
    apply python_only_bind; [exact IH|]. intros vs. apply python_only_OK.
Qed.

Lemma python_only_np_argmax (a : list float) : python_only (np_argmax a).
Proof.
  intros e H. destruct a as [|mp ip]; simpl in H.
  - now injection H as <-.
  - destruct (isnan mp); discriminate.
Qed.

Create HintDb python_only.
#[export] Hint Resolve python_only_OK python_only_call python_only_py_mod
  python_only_py_getitem python_only_np_argmax : python_only.

Ltac python_only :=
  repeat first
    [ apply python_only_bind; [|intros]
    | apply python_only_comprehension; intros
    | match goal with |- python_only (match ?p with pair _ _ => _ end) =>
        destruct p end
    | solve [auto with python_only] ].

Lemma python_only_np_take {A : Type} (a : list A) (idx : list nat) :
  python_only (np_take a idx).
Proof. unfold np_take. python_only. Qed.

Lemma python_only_split {fv tgt : Type} (X : list fv) (y : list tgt)
  (fold : list Z) (i : Z) :
  python_only (split X y fold i).
Proof.
  unfold split. pose proof (@python_only_np_take fv).
  pose proof (@python_only_np_take tgt). python_only.
Qed.

Lemma python_only_fold_labels (K : Z) (N : nat) :
  python_only (fold_labels K N).
Proof. unfold fold_labels. python_only. Qed.

Lemma python_only_fold_assignment (rng : bitgen) (K : Z) (N : nat) :
  python_only (fold_assignment rng K N).
Proof.
  unfold fold_assignment. pose proof python_only_fold_labels. python_only.
Qed.

#[export] Hint Resolve python_only_np_take python_only_split
  python_only_fold_labels python_only_fold_assignment : python_only.

(** ** The fold assigner *)

Lemma fold_assignment_nonzero (rng : bitgen) (K : Z) (N : nat) :
  K <> 0%Z -> fold_assignment rng K N = OK (rng_shuffle rng (labels K N)).
Proof.
  intros HK. unfold fold_assignment. now rewrite fold_labels_nonzero.
Qed.

Lemma fold_assignment_length (rng : bitgen) (K : Z) (N : nat)
  (fold : list Z) :
  fold_assignment rng K N = OK fold -> length fold = N.
Proof.
  intros H. unfold fold_assignment in H.
  destruct (fold_labels K N) as [fold0|e] eqn:H0; simpl in H; [|discriminate].
  injection H as <-.
  rewrite <- (Permutation_length (rng_shuffle_perm rng fold0)).
  unfold fold_labels in H0. apply comprehension_length in H0.
  now rewrite H0, length_py_range, Nat2Z.id.
Qed.

(** Balance is a property of the label counts, so of every rearrangement. *)
Lemma balanced_rearrangement (K : Z) (N : nat) (fold : list Z) :
  (0 < K)%Z -> Permutation (labels K N) fold ->
  length fold = N /\
  (forall l, In l fold -> (0 <= l < K)%Z) /\
  (forall f f', (0 <= f < K)%Z -> (0 <= f' < K)%Z ->
     (fold_size fold f <= fold_size fold f' + 1)%nat) /\
  ((K <= Z.of_nat N)%Z ->
     forall f, (0 <= f < K)%Z -> (1 <= fold_size fold f)%nat).
Proof.
  intros HK HP.
  destruct (fold_size_labels K N HK) as (q & r & Hq & Hr & HN & Hc).
  split; [|split; [|split]].
  - rewrite <- (Permutation_length HP). apply length_labels.
  - intros l Hl. apply (labels_range K N); [exact HK|].
    eapply Permutation_in; [apply Permutation_sym, HP|exact Hl].
  - intros f f' Hf Hf'.
    rewrite <- !(fold_size_perm _ _ _ HP).
    pose proof (Hc f Hf) as H1. pose proof (Hc f' Hf') as H2.
    destruct (Z.ltb_spec f r), (Z.ltb_spec f' r); lia.
  - intros HKN f Hf. rewrite <- (fold_size_perm _ _ _ HP).
    pose proof (Hc f Hf) as H1.
    assert (1 <= q)%Z by nia.
    destruct (Z.ltb_spec f r); lia.
Qed.

(** C2: for 2 <= K <= N the fold assigner produces exactly N labels, every
    fold id in [0, K-1] occurs at least once, and two fold sizes differ by
    at most 1; this holds of the labels before the shuffle and of the array
    after it, which is a rearrangement of the same labels. *)
Theorem fold_assignment_balanced (rng : bitgen) (K : Z) (N : nat) :
  (2 <= K <= Z.of_nat N)%Z ->
  exists fold0 : list Z,
    fold_labels K N = OK fold0 /\
    fold_assignment rng K N = OK (rng_shuffle rng fold0) /\
    Permutation fold0 (rng_shuffle rng fold0) /\
    forall fold, fold = fold0 \/ fold = rng_shuffle rng fold0 ->
      length fold = N /\
      (forall l, In l fold -> (0 <= l < K)%Z) /\
      (forall f, (0 <= f < K)%Z -> (1 <= fold_size fold f)%nat) /\
      (forall f f', (0 <= f < K)%Z -> (0 <= f' < K)%Z ->
         (fold_size fold f <= fold_size fold f' + 1)%nat).
Proof.
  intros HK. exists (labels K N).
  split; [apply fold_labels_nonzero; lia|].
  split; [apply fold_assignment_nonzero; lia|].
  split; [apply rng_shuffle_perm|].
  intros fold Hfold.
  assert (HP : Permutation (labels K N) fold).
  { destruct Hfold as [->| ->]; [reflexivity|apply rng_shuffle_perm]. }
  destruct (balanced_rearrangement K N fold ltac:(lia) HP)
    as (Hlen & Hrange & Hdiff & Hcover).
  repeat split; auto; try (apply Hrange; assumption).
  intros f Hf. apply Hcover; lia.
Qed.

(** Twelve instances in the notebook's ten folds. *)
Lemma fold_assignment_balanced_witness :
  exists fold0 : list Z,
    fold_labels n_folds_of_notebook 12 = OK fold0 /\
    fold_assignment (fun k => (3 * k + 1)%nat) n_folds_of_notebook 12
    = OK (rng_shuffle (fun k => (3 * k + 1)%nat) fold0) /\
    (1 <= fold_size (rng_shuffle (fun k => (3 * k + 1)%nat) fold0) 7)%nat.
Proof.
  destruct (fold_assignment_balanced (fun k => (3 * k + 1)%nat)
              n_folds_of_notebook 12 ltac:(unfold n_folds_of_notebook; lia))
    as (fold0 & H0 & H1 & _ & H).
  exists fold0. split; [exact H0|]. split; [exact H1|].
  destruct (H _ (or_intror eq_refl)) as (_ & _ & Hcover & _).
  apply Hcover. unfold n_folds_of_notebook. lia.
Defined.

(** C3: before the shuffle instance [i] carries the label [i % K]: reading
    [fold[i]] has the outcome of evaluating [i % K], and for a fold count
    other than 0 that is the label [i mod K] in an array of N labels.  For
    N = 10 the labels are 0,1,2,3,4,0,1,2,3,4 with K = 5 and 0,...,9 with
    K = 10. *)
Theorem fold_labels_are_residues (K : Z) (N : nat) :
  (forall i, (i < N)%nat ->
     (fold <- fold_labels K N ;; py_getitem fold i) = py_mod (Z.of_nat i) K)
  /\
  (K <> 0%Z ->
     exists fold, fold_labels K N = OK fold /\ length fold = N /\
       forall i, (i < N)%nat -> nth_error fold i = Some (Z.of_nat i mod K)%Z)
  /\
  fold_labels 5 10 = OK [0; 1; 2; 3; 4; 0; 1; 2; 3; 4]%Z /\
  fold_labels 10 10 = OK [0; 1; 2; 3; 4; 5; 6; 7; 8; 9]%Z.
Proof.
  split; [|split; [|split; reflexivity]].
  - intros i Hi. unfold py_mod. destruct (Z.eqb_spec K 0) as [->|HK].
    + rewrite fold_labels_zero by lia. reflexivity.
    + rewrite fold_labels_nonzero by assumption. simpl.
      unfold py_getitem. now rewrite nth_error_labels.
  - intros HK. exists (labels K N).
    split; [now apply fold_labels_nonzero|].
    split; [apply length_labels|]. intros i Hi. now apply nth_error_labels.
Qed.

(** Instance 7 of 10 in 4 folds carries label 3. *)
Lemma fold_labels_are_residues_witness :
  (fold <- fold_labels 4 10 ;; py_getitem fold 7) = OK 3%Z.
Proof.
  exact (proj1 (fold_labels_are_residues 4 10) 7%nat ltac:(lia)).
Defined.

(** C7, as the code has it: the fold construction validates nothing.  It
    never ends in [ConfigurationError]; it returns N labels for every fold
    count other than 0, so also for K < 2 and for K > N, and in particular
    for 2 <= K <= N; a fold count of 0 raises [ZeroDivisionError] as soon
    as there is an instance. *)
Theorem fold_assignment_outcomes (rng : bitgen) (K : Z) (N : nat) :
  fold_assignment rng K N <> Err ConfigurationError /\
  (K <> 0%Z ->
     exists fold, fold_assignment rng K N = OK fold /\ length fold = N) /\
  ((2 <= K <= Z.of_nat N)%Z ->
     exists fold, fold_assignment rng K N = OK fold /\ length fold = N) /\
  (K = 0%Z -> N <> 0%nat ->
     fold_assignment rng K N = Err ZeroDivisionError) /\
  (N = 0%nat -> fold_assignment rng K N = OK []).
Proof.
  assert (Hnz : K <> 0%Z ->
     exists fold, fold_assignment rng K N = OK fold /\ length fold = N).
  { intros HK. exists (rng_shuffle rng (labels K N)).
    split; [now apply fold_assignment_nonzero|].
    rewrite <- (Permutation_length (rng_shuffle_perm rng _)).
    apply length_labels. }
  split; [|split; [exact Hnz|split; [|split]]].
  - intros H. now apply python_only_fold_assignment in H.
  - intros HK. apply Hnz. lia.
  - intros -> HN. unfold fold_assignment.
    now rewrite fold_labels_zero.
  - intros ->. reflexivity.
Qed.

Lemma fold_assignment_outcomes_witness :
  exists fold, fold_assignment (fun k => k) 1 3 = OK fold /\ length fold = 3%nat.
Proof.
  exact (proj1 (proj2 (fold_assignment_outcomes (fun k => k) 1 3))
           ltac:(discriminate)).
Defined.

(** C7 as stated fails: one fold for three instances, and five folds for
    three instances, are both accepted. *)
Lemma fold_assignment_accepts_bad_counts :
  (1 < 2)%Z /\
  fold_assignment (fun _ => 0%nat) 1 3 = OK [0; 0; 0]%Z /\
  fold_assignment (fun _ => 0%nat) 1 3 <> Err ConfigurationError /\
  (5 > Z.of_nat 3)%Z /\
  fold_assignment (fun _ => 0%nat) 5 3 = OK [1; 2; 0]%Z /\
  fold_assignment (fun _ => 0%nat) 5 3 <> Err ConfigurationError.
Proof. repeat split; try reflexivity; discriminate. Qed.

(** ** Cell [f6eda8ee] *)

Section Cell_f6eda8ee_facts.
Context {fv tgt : Type} {LR : Estimator fv tgt}.
Variable LinearRegression : unit -> estimator.

Lemma python_only_cv_loop (X : list fv) (y : list tgt) (fold ids : list Z)
  (perf : list float) :
  python_only (cv_loop LinearRegression X y fold ids perf).
Proof.
  revert perf. induction ids as [|i ids IH]; intros perf; simpl.
  - auto with python_only.
  - python_only.
Qed.

Lemma python_only_cross_validate (K : Z) (fold : list Z) (X : list fv)
  (y : list tgt) :
  python_only (cross_validate LinearRegression K fold X y).
Proof. apply python_only_cv_loop. Qed.

(** The loop is the comprehension of the per-fold round. *)
Lemma cv_loop_comprehension (X : list fv) (y : list tgt) (fold ids : list Z)
  (perf : list float) :
  length fold = length X -> length y = length X ->
  cv_loop LinearRegression X y fold ids perf
  = (ss <- comprehension
             (fun f => fit_and_score (LinearRegression tt)
                         (training_rows fold f X) (test_rows fold f X)
                         (training_rows fold f y) (test_rows fold f y))
             ids ;;
     OK (perf ++ ss)).
Proof.
  intros HX Hy. revert perf.
  induction ids as [|i ids IH]; intros perf; simpl.
  - now rewrite app_nil_r.
  - rewrite split_ok by assumption. simpl. unfold fit_and_score at 1.
    destruct (call (fit _ _ _)) as [mdl|e]; simpl; [|reflexivity].
    destruct (call (score _ _ _)) as [s|e]; simpl; [|reflexivity].
    rewrite IH.
    destruct (comprehension _ ids) as [ss|e]; simpl; [|reflexivity].
    now rewrite <- app_assoc.
Qed.

Lemma nth_error_py_range (K f : Z) :
  (0 <= f < K)%Z -> nth_error (py_range K) (Z.to_nat f) = Some f.
Proof.
  intros Hf. unfold py_range. rewrite nth_error_map, nth_error_seq.
  destruct (Nat.ltb_spec (Z.to_nat f) (Z.to_nat K)); [|lia].
  simpl. now rewrite Z2Nat.id by lia.
Qed.

(** When the loop returns, [perf] has one entry per fold id, and entry
    [f] is the score of the round of fold [f]. *)
Lemma cross_validate_scores (K : Z) (fold : list Z) (X : list fv)
  (y : list tgt) (perf : list float) :
  length fold = length X -> length y = length X ->
  cross_validate LinearRegression K fold X y = OK perf ->
  length perf = Z.to_nat K /\
  forall f, (0 <= f < K)%Z ->
    fit_and_score (LinearRegression tt)
      (training_rows fold f X) (test_rows fold f X)
      (training_rows fold f y) (test_rows fold f y)
    = OK (nth (Z.to_nat f) perf NaN).
Proof.
  intros HX Hy H. unfold cross_validate in H.
  rewrite cv_loop_comprehension in H by assumption.
  destruct (comprehension _ (py_range K)) as [ss|e] eqn:Hc;
    simpl in H; [|discriminate].
  injection H as <-. split.
  - now rewrite (comprehension_length _ _ _ Hc), length_py_range.
  - intros f Hf.
    destruct (comprehension_nth _ _ _ _ _ Hc (nth_error_py_range K f Hf))
      as (v & Hv & Hnth).
    rewrite Hv. f_equal. symmetry. now apply nth_error_nth.
Qed.

(** The loop returns as soon as every round does. *)
Lemma cross_validate_returns (K : Z) (fold : list Z) (X : list fv)
  (y : list tgt) :
  length fold = length X -> length y = length X ->
  (forall f, (0 <= f < K)%Z ->
     exists s, fit_and_score (LinearRegression tt)
                 (training_rows fold f X) (test_rows fold f X)
                 (training_rows fold f y) (test_rows fold f y) = OK s) ->
  exists perf, cross_validate LinearRegression K fold X y = OK perf.
Proof.
  intros HX Hy Hall. unfold cross_validate.
  rewrite cv_loop_comprehension by assumption.
  destruct (comprehension_total
              (fun f => fit_and_score (LinearRegression tt)
                          (training_rows fold f X) (test_rows fold f X)
                          (training_rows fold f y) (test_rows fold f y))
              (py_range K)) as [ss Hss].
  - intros f Hf. apply Hall. now apply in_py_range.
  - rewrite Hss. simpl. now exists ss.
Qed.

Lemma python_only_cross_validation (rng : bitgen) (K : Z) (X : list fv)
  (y : list tgt) :
  python_only (cross_validation LinearRegression rng K X y).
Proof.
  unfold cross_validation. pose proof python_only_cross_validate.
  python_only.
Qed.

(** C1: for every dataset, fold array and fold id [f] below [K], the loop
    of cell f6eda8ee splits the rows into those labelled other than [f]
    (training) and those labelled [f] (test), fits a newly constructed
    [LinearRegression()] on the training rows only, scores it on the test
    rows, and collects exactly one score per fold: entry [f] of [perf] is
    that score and depends on no other fold.  The run returns as soon as
    every such fit and score returns. *)
Theorem cross_validate_per_fold (K : Z) (fold : list Z) (X : list fv)
  (y : list tgt) :
  length fold = length X -> length y = length X ->
  (forall f, Permutation (training_rows fold f X ++ test_rows fold f X) X /\
             Permutation (training_rows fold f y ++ test_rows fold f y) y)
  /\
  (forall perf, cross_validate LinearRegression K fold X y = OK perf ->
     length perf = Z.to_nat K /\
     forall f, (0 <= f < K)%Z ->
       fit_and_score (LinearRegression tt)
         (training_rows fold f X) (test_rows fold f X)
         (training_rows fold f y) (test_rows fold f y)
       = OK (nth (Z.to_nat f) perf NaN))
  /\
  ((forall f, (0 <= f < K)%Z ->
      exists s, fit_and_score (LinearRegression tt)
                  (training_rows fold f X) (test_rows fold f X)
                  (training_rows fold f y) (test_rows fold f y) = OK s) ->
   exists perf, cross_validate LinearRegression K fold X y = OK perf).
Proof.
  intros HX Hy. split; [|split].
  - intros f. split; apply split_is_partition; congruence.
  - intros perf H. now apply cross_validate_scores.
  - now apply cross_validate_returns.
Qed.
End Cell_f6eda8ee_facts.

(** Four rows in two folds, run with the mean regressor: the run returns two
    scores, one per fold. *)
Lemma cross_validate_per_fold_witness :
  exists perf,
    cross_validate (LR := Toy.MeanRegressor) (fun _ => None) 2
      [0; 1; 0; 1]%Z [1; 2; 3; 4] [2; 4; 6; 9] = OK perf /\
    length perf = 2%nat.
Proof.
  destruct (cross_validate_per_fold (LR := Toy.MeanRegressor) (fun _ => None)
              2 [0; 1; 0; 1]%Z [1; 2; 3; 4] [2; 4; 6; 9] eq_refl eq_refl)
    as (_ & Hscores & _).
  eexists. split; [reflexivity|].
  exact (proj1 (Hscores _ eq_refl)).
Defined.

(** ** Empty test partitions and leave-one-out *)

Lemma test_rows_same_length {A B : Type} (fold : list Z) (f : Z)
  (a : list A) (b : list B) :
  length fold = length a -> length fold = length b ->
  length (test_rows fold f a) = length (test_rows fold f b).
Proof. intros Ha Hb. now rewrite !length_test_rows. Qed.

(** With as many folds as instances every fold holds one instance. *)
Lemma leave_one_out_sizes (N : nat) (fold : list Z) (f : Z) :
  Permutation (labels (Z.of_nat N) N) fold ->
  (0 <= f < Z.of_nat N)%Z -> fold_size fold f = 1%nat.
Proof.
  intros HP Hf. rewrite <- (fold_size_perm _ _ _ HP).
  destruct (fold_size_labels (Z.of_nat N) N ltac:(lia))
    as (q & r & Hq & Hr & HN & Hc).
  specialize (Hc f Hf).
  assert (q = 1%Z) by nia. assert (r = 0%Z) by nia. subst.
  destruct (Z.ltb_spec f 0); lia.
Qed.

(** ** The reported aggregate *)

Lemma np_sum_finite (qs : list Q) (a : Q) :
  fold_left fadd (map Fin qs) (Fin a) = Fin (fold_left Qplus qs a).
Proof.
  revert a. induction qs as [|q qs IH]; intros a; simpl; [reflexivity|].
  apply IH.
Qed.

Lemma np_mean_finite (qs : list Q) :
  qs <> [] -> np_mean (map Fin qs) = Fin (spec_mean qs).
Proof.
  intros Hne. destruct qs as [|q qs]; [congruence|].
  unfold np_mean, np_sum, spec_mean, total.
  change (map Fin (q :: qs)) with (Fin q :: map Fin qs).
  change (Fin q :: map Fin qs) with (map Fin (q :: qs)).
  rewrite np_sum_finite. now rewrite length_map.
Qed.



(** ** [np.argmax] on numbers *)

Lemma fle_refl (a : float) : finite a -> fle a a = true.
Proof.
  destruct a as [|q]; intros H; [discriminate|].
  simpl. apply Qle_bool_iff. apply Qle_refl.
Qed.

Lemma fle_trans (a b c : float) :
  fle a b = true -> fle b c = true -> fle a c = true.
Proof.
  destruct a as [|p], b as [|q], c as [|r]; simpl; try discriminate.
  rewrite !Qle_bool_iff. apply Qle_trans.
Qed.

Lemma fle_total (a b : float) :
  finite a -> finite b -> fle a b = false -> fle b a = true.
Proof.
  destruct a as [|p], b as [|q]; intros Ha Hb; try discriminate.
  simpl. intros H. apply Qle_bool_iff.
  destruct (Qlt_le_dec q p) as [Hlt|Hle].
  - now apply Qlt_le_weak.
  - apply Qle_bool_iff in Hle. congruence.
Qed.

(** The scan over numbers ends on the first position of a largest one. *)
Lemma argmax_scan_spec (ip : list float) :
  forall (mp : float) (max_ind i : nat),
    finite mp -> Forall finite ip -> (max_ind < i)%nat ->
    exists b,
      ((argmax_scan mp max_ind i ip = max_ind /\ b = mp) \/
       ((i <= argmax_scan mp max_ind i ip)%nat /\
        nth_error ip (argmax_scan mp max_ind i ip - i) = Some b /\
        fle b mp = false)) /\
      fle mp b = true /\
      forall j y, nth_error ip j = Some y ->
        fle y b = true /\
        ((i + j < argmax_scan mp max_ind i ip)%nat -> fle b y = false).
Proof.
  induction ip as [|x ip IH]; intros mp max_ind i Hmp Hall Hlt.
  - exists mp. split; [left; now split|]. split; [now apply fle_refl|].
    intros [|j] y H; discriminate.
  - inversion Hall as [|? ? Hx Hip]; subst. simpl.
    destruct (fle x mp) eqn:Hxmp; simpl.
    + destruct (IH mp max_ind (S i) Hmp Hip ltac:(lia))
        as (b & Hpos & Hmb & Hrest).
      set (r := argmax_scan mp max_ind (S i) ip) in *.
      exists b. split; [|split; [exact Hmb|]].
      * destruct Hpos as [[Hr Hb]|(Hr & Hn & Hbm)]; [left; now split|].
        right. split; [lia|]. split; [|exact Hbm].
        replace (r - i)%nat with (S (r - S i)) by lia. exact Hn.
      * intros [|j] y Hy; simpl in Hy.
        -- injection Hy as <-. split; [now apply (fle_trans x mp b)|].
           intros Hir.
           destruct Hpos as [[Hr Hb]|(Hr & Hn & Hbm)]; [lia|].
           destruct (fle b x) eqn:Hbx; [|reflexivity].
           rewrite (fle_trans b x mp Hbx Hxmp) in Hbm. discriminate.
        -- destruct (Hrest j y Hy) as [H1 H2]. split; [exact H1|].
           intros Hir. apply H2. lia.
    + rewrite Hx.
      assert (Hmx : fle mp x = true) by now apply fle_total.
      destruct (IH x i (S i) Hx Hip ltac:(lia))
        as (b & Hpos & Hxb & Hrest).
      set (r := argmax_scan x i (S i) ip) in *.
      exists b. split; [|split; [now apply (fle_trans mp x b)|]].
      * right. destruct Hpos as [[Hr Hb]|(Hr & Hn & Hbx)].
        -- subst b. rewrite Hr. split; [lia|].
           rewrite Nat.sub_diag. now split.
        -- split; [lia|]. split.
           ++ replace (r - i)%nat with (S (r - S i)) by lia. exact Hn.
           ++ destruct (fle b mp) eqn:Hbm; [|reflexivity].
              rewrite (fle_trans b mp x Hbm Hmx) in Hbx. discriminate.
      * intros [|j] y Hy; simpl in Hy.
        -- injection Hy as <-. split; [exact Hxb|].
           intros Hir.
           destruct Hpos as [[Hr Hb]|(Hr & Hn & Hbx)]; [lia|exact Hbx].
        -- destruct (Hrest j y Hy) as [H1 H2]. split; [exact H1|].
           intros Hir. apply H2. lia.
Qed.

Lemma np_argmax_spec (a : list float) :
  a <> [] -> Forall finite a ->
  exists r b,
    np_argmax a = OK r /\ nth_error a r = Some b /\
    forall j y, nth_error a j = Some y ->
      fle y b = true /\ ((j < r)%nat -> fle b y = false).
Proof.
  intros Hne Hall. destruct a as [|mp ip]; [congruence|].
  inversion Hall as [|? ? Hmp Hip]; subst.
  destruct (argmax_scan_spec ip mp 0 1 Hmp Hip ltac:(lia))
    as (b & Hpos & Hmb & Hrest).
  unfold np_argmax. rewrite Hmp.
  set (r := argmax_scan mp 0 1 ip) in *.
  exists r, b. split; [reflexivity|].
  destruct Hpos as [[Hr Hb]|(Hr & Hn & Hbm)].
  - subst b. rewrite Hr. split; [reflexivity|].
    intros [|j] y Hy; simpl in Hy.
    + injection Hy as <-. split; [exact Hmb|lia].
    + destruct (Hrest j y Hy) as [H1 _]. split; [exact H1|lia].
  - split.
    + replace r with (S (r - 1)) at 1 by lia. exact Hn.
    + intros [|j] y Hy; simpl in Hy.
      * injection Hy as <-. split; [exact Hmb|]. intros _. exact Hbm.
      * destruct (Hrest j y Hy) as [H1 H2]. split; [exact H1|].
        intros Hj. apply H2. lia.
Qed.

(** On numbers [np.argmax] is the specification's rule for the direction
    "higher is better". *)
Lemma argmax_scan_is_spec_select (ip : list float) :
  forall mp max_ind i, Forall finite ip ->
    argmax_scan mp max_ind i ip
    = spec_select_from HigherIsBetter mp max_ind i ip.
Proof.
  induction ip as [|x ip IH]; intros mp max_ind i Hall; simpl;
    [reflexivity|].
  inversion Hall as [|? ? Hx Hip]; subst.
  rewrite Hx. destruct (fle x mp); simpl; now apply IH.
Qed.

Lemma np_argmax_is_spec_select (a : list float) (r : nat) :
  Forall finite a -> np_argmax a = OK r ->
  spec_select HigherIsBetter a = Some r.
Proof.
  intros Hall H. destruct a as [|mp ip]; [discriminate|].
  inversion Hall as [|? ? Hmp Hip]; subst.
  simpl in *. rewrite Hmp in H. injection H as <-.
  now rewrite argmax_scan_is_spec_select.
Qed.

(** The position [np.argmax] returns lies inside the array. *)
Lemma argmax_scan_bound (ip : list float) :
  forall mp max_ind i, (max_ind < i)%nat ->
    (argmax_scan mp max_ind i ip < i + length ip)%nat.
Proof.
  induction ip as [|x ip IH]; intros mp max_ind i Hlt; simpl; [lia|].
  destruct (fle x mp); simpl.
  - specialize (IH mp max_ind (S i) ltac:(lia)). lia.
  - destruct (isnan x); [lia|].
    specialize (IH x i (S i) ltac:(lia)). lia.
Qed.

Lemma np_argmax_returns (a : list float) :
  a <> [] -> exists r, np_argmax a = OK r /\ (r < length a)%nat.
Proof.
  intros Hne. destruct a as [|mp ip]; [congruence|]. simpl.
  destruct (isnan mp).
  - exists 0%nat. split; [reflexivity|lia].
  - eexists. split; [reflexivity|].
    pose proof (argmax_scan_bound ip mp 0 1 ltac:(lia)). lia.
Qed.

(** ** Cell [f306f94d] *)

Section Cell_f306f94d_facts.
Context {fv tgt : Type} {KNN : Estimator fv tgt} {SS : Standardiser fv}.
Variable KNeighborsRegressor : Z -> estimator.

(** The fold loop is the comprehension of the standardised rounds, from
    any state of the scaler object. *)
Lemma fold_loop_scores (X : list fv) (y : list tgt) (fold : list Z) (k : Z)
  (ids : list Z) (scaler : scaler_obj) (perf : list float) :
  length fold = length X -> length y = length X ->
  scores_of (fold_loop KNeighborsRegressor X y fold k ids scaler perf)
  = (ss <- comprehension
             (fun f => standardised_round (KNeighborsRegressor k)
                         (training_rows fold f X) (test_rows fold f X)
                         (training_rows fold f y) (test_rows fold f y))
             ids ;;
     OK (perf ++ ss)).
Proof.
  intros HX Hy. revert scaler perf.
  induction ids as [|i ids IH]; intros scaler perf; simpl.
  - now rewrite app_nil_r.
  - rewrite split_ok by assumption. simpl.
    unfold standardised_round at 1, fit_transform.
    destruct (learn (training_rows fold i X)) as [e|p]; simpl;
      [reflexivity|].
    destruct (rescale p (training_rows fold i X)) as [e|Z_train]; simpl;
      [reflexivity|].
    destruct (rescale p (test_rows fold i X)) as [e|Z_test]; simpl;
      [reflexivity|].
    unfold fit_and_score.
    destruct (fit _ Z_train _) as [e|mdl]; simpl; [reflexivity|].
    destruct (score mdl Z_test _) as [e|s]; simpl; [reflexivity|].
    rewrite IH.
    destruct (comprehension _ ids) as [ss|e]; simpl; [|reflexivity].
    now rewrite <- app_assoc.
Qed.

(** The candidate loop is the comprehension of the candidates'
    aggregates, all over the one fold array. *)
Lemma candidate_loop_scores (X : list fv) (y : list tgt) (fold : list Z)
  (K : Z) (candidates : list Z) (scaler : scaler_obj)
  (nperf : list float) :
  length fold = length X -> length y = length X ->
  scores_of (candidate_loop KNeighborsRegressor X y fold K candidates
               scaler nperf)
  = (ms <- comprehension
             (fun k => candidate_score (KNeighborsRegressor k) K fold X y)
             candidates ;;
     OK (nperf ++ ms)).
Proof.
  intros HX Hy. revert scaler nperf.
  induction candidates as [|k candidates IH]; intros scaler nperf; simpl.
  - now rewrite app_nil_r.
  - pose proof (fold_loop_scores X y fold k (py_range K) scaler [] HX Hy)
      as Hfl.
    unfold candidate_score at 1.
    destruct (fold_loop _ X y fold k (py_range K) scaler [])
      as [[scaler1 perf]|e]; simpl in *.
    + destruct (comprehension _ (py_range K)) as [ss|e]; simpl in *;
        [|discriminate].
      injection Hfl as ->. rewrite IH.
      destruct (comprehension _ candidates) as [ms|e]; simpl;
        [|reflexivity].
      now rewrite <- app_assoc.
    + destruct (comprehension _ (py_range K)) as [ss|e']; simpl in *;
        [discriminate|]. congruence.
Qed.

Lemma search_with_scores (K : Z) (fold : list Z) (candidates : list Z)
  (X : list fv) (y : list tgt) :
  length fold = length X -> length y = length X ->
  search_with KNeighborsRegressor K fold candidates X y
  = (ms <- comprehension
             (fun k => candidate_score (KNeighborsRegressor k) K fold X y)
             candidates ;;
     select_best candidates ms).
Proof.
  intros HX Hy. unfold search_with.
  pose proof (candidate_loop_scores X y fold K candidates
                (StandardScaler tt) [] HX Hy) as H.
  destruct (candidate_loop _ X y fold K candidates (StandardScaler tt) [])
    as [[scaler1 nperf]|e]; simpl in *.
  - destruct (comprehension _ candidates) as [ms|e]; simpl in *;
      [|discriminate].
    now injection H as ->.
  - destruct (comprehension _ candidates) as [ms|e']; simpl in *;
      [discriminate|]. congruence.
Qed.
Lemma python_only_fold_loop (X : list fv) (y : list tgt) (fold : list Z)
  (k : Z) (ids : list Z) (scaler : scaler_obj) (perf : list float) :
  python_only (fold_loop KNeighborsRegressor X y fold k ids scaler perf).
Proof.
  revert scaler perf. induction ids as [|i ids IH]; intros scaler perf;
    simpl.
  - auto with python_only.
  - python_only.
Qed.

Lemma python_only_candidate_loop (X : list fv) (y : list tgt)
  (fold : list Z) (K : Z) (candidates : list Z) (scaler : scaler_obj)
  (nperf : list float) :
  python_only (candidate_loop KNeighborsRegressor X y fold K candidates
                 scaler nperf).
Proof.
  revert scaler nperf.
  induction candidates as [|k candidates IH]; intros scaler nperf; simpl.
  - auto with python_only.
  - pose proof python_only_fold_loop. python_only.
Qed.

Lemma python_only_select_best (candidates : list Z) (nperf : list float) :
  python_only (select_best candidates nperf).
Proof. unfold select_best. python_only. Qed.

Lemma python_only_hyperparameter_search (rng : bitgen) (K : Z)
  (candidates : list Z) (X : list fv) (y : list tgt) :
  python_only (hyperparameter_search KNeighborsRegressor rng K candidates
                 X y).
Proof.
  unfold hyperparameter_search, search_with.
  pose proof python_only_candidate_loop.
  pose proof python_only_select_best. python_only.
Qed.

Lemma select_best_fields (candidates : list Z) (nperf : list float)
  (r : search_result) :
  select_best candidates nperf = OK r ->
  neighbourhood_perf r = nperf /\
  np_argmax nperf = OK (best_neighbourhood r) /\
  nth_error candidates (best_neighbourhood r) = Some (best_k r) /\
  nth_error nperf (best_neighbourhood r) = Some (best_perf r).
Proof.
  unfold select_best, py_getitem. intros H.
  destruct (np_argmax nperf) as [best|e]; simpl in H; [|discriminate].
  destruct (nth_error candidates best) as [k|] eqn:Hk; simpl in H;
    [|discriminate].
  destruct (nth_error nperf best) as [p|] eqn:Hp; simpl in H;
    [|discriminate].
  injection H as <-. simpl. auto.
Qed.

Lemma select_best_returns (candidates : list Z) (nperf : list float) :
  candidates <> [] -> length nperf = length candidates ->
  exists r, select_best candidates nperf = OK r /\
            In (best_k r) candidates.
Proof.
  intros Hne Hlen.
  assert (Hn : nperf <> []).
  { intros ->. destruct candidates; [congruence|discriminate]. }
  destruct (np_argmax_returns nperf Hn) as (best & Hbest & Hlt).
  unfold select_best, py_getitem. rewrite Hbest. simpl.
  destruct (nth_error candidates best) as [k|] eqn:Hk.
  - destruct (nth_error nperf best) as [p|] eqn:Hp.
    + simpl. eexists. split; [reflexivity|]. simpl.
      now apply nth_error_In in Hk.
    + apply nth_error_None in Hp. lia.
  - apply nth_error_None in Hk. lia.
Qed.

(** A run that returns went through one fold array, the candidates'
    aggregates over it, and the selection. *)
Lemma search_decompose (rng : bitgen) (K : Z) (candidates : list Z)
  (X : list fv) (y : list tgt) (r : search_result) :
  length y = length X ->
  hyperparameter_search KNeighborsRegressor rng K candidates X y = OK r ->
  exists fold,
    fold_assignment rng K (length X) = OK fold /\
    length fold = length X /\
    comprehension
      (fun k => candidate_score (KNeighborsRegressor k) K fold X y)
      candidates = OK (neighbourhood_perf r) /\
    select_best candidates (neighbourhood_perf r) = OK r.
Proof.
  intros Hy H. unfold hyperparameter_search in H.
  destruct (fold_assignment rng K (length X)) as [fold|e] eqn:Hf;
    simpl in H; [|discriminate].
  pose proof (fold_assignment_length _ _ _ _ Hf) as Hlen.
  rewrite search_with_scores in H by assumption.
  destruct (comprehension _ candidates) as [ms|e] eqn:Hc; simpl in H;
    [|discriminate].
  destruct (select_best_fields _ _ _ H) as (Hn & _).
  exists fold. rewrite Hn. auto.
Qed.

(** One step of the fold loop, from any state of the scaler object. *)
Lemma fold_loop_step (X : list fv) (y : list tgt) (fold : list Z)
  (k f : Z) (scaler scaler1 : scaler_obj) (perf perf1 : list float) :
  length fold = length X -> length y = length X ->
  fold_loop KNeighborsRegressor X y fold k [f] scaler perf
  = OK (scaler1, perf1) ->
  exists p Z_train Z_test s,
    learn (training_rows fold f X) = inr p /\
    scaler1 = Some p /\
    rescale p (training_rows fold f X) = inr Z_train /\
    rescale p (test_rows fold f X) = inr Z_test /\
    fit_and_score (KNeighborsRegressor k) Z_train Z_test
      (training_rows fold f y) (test_rows fold f y) = OK s /\
    perf1 = perf ++ [s].
Proof.
  intros HX Hy H. simpl in H. rewrite split_ok in H by assumption.
  simpl in H. unfold fit_transform in H.
  destruct (learn (training_rows fold f X)) as [e|p] eqn:Hl; simpl in H;
    [discriminate|].
  destruct (rescale p (training_rows fold f X)) as [e|Z_train] eqn:Hr;
    simpl in H; [discriminate|].
  destruct (rescale p (test_rows fold f X)) as [e|Z_test] eqn:Ht;
    simpl in H; [discriminate|].
  destruct (call (fit _ Z_train _)) as [mdl|e] eqn:Hfit; simpl in H;
    [|discriminate].
  destruct (call (score mdl Z_test _)) as [s|e] eqn:Hs; simpl in H;
    [|discriminate].
  injection H as <- <-.
  exists p, Z_train, Z_test, s. repeat split; try assumption.
  unfold fit_and_score. rewrite Hfit. simpl. exact Hs.
Qed.
End Cell_f306f94d_facts.

(** ** The search: scaling, fairness, selection, candidates *)

(** C10: in the search cell the one scaler object is refitted in every fold
    of every candidate.  Whatever it held on entry to a fold, after the fold
    it holds what [learn] gives on that fold's training rows, and the test
    rows are transformed with exactly that; so the scores of the loops are
    those of rounds that learn the scaling from the training rows alone, and
    two datasets with the same training rows for a fold leave the same
    scaling, whatever their test rows. *)
Theorem scaler_learns_from_training_rows {fv tgt : Type}
  {KNN : Estimator fv tgt} {SS : Standardiser fv}
  (KNeighborsRegressor : Z -> estimator) (K : Z) (fold : list Z)
  (candidates : list Z) (X : list fv) (y : list tgt) :
  length fold = length X -> length y = length X ->
  (forall k f scaler perf scaler1 perf1,
     fold_loop KNeighborsRegressor X y fold k [f] scaler perf
     = OK (scaler1, perf1) ->
     exists p Z_train Z_test s,
       learn (training_rows fold f X) = inr p /\
       scaler1 = Some p /\
       rescale p (training_rows fold f X) = inr Z_train /\
       rescale p (test_rows fold f X) = inr Z_test /\
       fit_and_score (KNeighborsRegressor k) Z_train Z_test
         (training_rows fold f y) (test_rows fold f y) = OK s /\
       perf1 = perf ++ [s]) /\
  (forall k ids scaler perf,
     scores_of (fold_loop KNeighborsRegressor X y fold k ids scaler perf)
     = (ss <- comprehension
                (fun f => standardised_round (KNeighborsRegressor k)
                            (training_rows fold f X) (test_rows fold f X)
                            (training_rows fold f y) (test_rows fold f y))
                ids ;;
        OK (perf ++ ss))) /\
  search_with KNeighborsRegressor K fold candidates X y
  = (ms <- comprehension
             (fun k => candidate_score (KNeighborsRegressor k) K fold X y)
             candidates ;;
     select_best candidates ms) /\
  (forall X' k f scaler scaler' perf perf' r r',
     length X' = length X ->
     training_rows fold f X' = training_rows fold f X ->
     fold_loop KNeighborsRegressor X y fold k [f] scaler perf = OK r ->
     fold_loop KNeighborsRegressor X' y fold k [f] scaler' perf' = OK r' ->
     fst r = fst r').
Proof.
  intros HX Hy. split; [|split; [|split]].
  - intros k f scaler perf scaler1 perf1 H.
    now apply (fold_loop_step KNeighborsRegressor X y fold k f scaler).
  - intros. now apply fold_loop_scores.
  - now apply search_with_scores.
  - intros X' k f scaler scaler' perf perf' [s1 p1] [s2 p2] HX' Htr H1 H2.
    apply fold_loop_step in H1; [|assumption|assumption].
    apply fold_loop_step in H2; [|congruence|congruence].
    destruct H1 as (p & _ & _ & _ & Hp & -> & _).
    destruct H2 as (p' & _ & _ & _ & Hp' & -> & _).
    simpl. rewrite Htr in Hp'. congruence.
Qed.

(** Five rows in two folds: after the round of fold 1 the scaler holds the
    mean of the three training rows 1, 3, 4 and nothing of the test rows. *)
Lemma scaler_learns_from_training_rows_witness :
  exists p,
    @learn Q Toy.Centre (training_rows [0; 1; 0; 0; 1]%Z 1 [1; 2; 3; 4; 5])
    = inr p /\
    fst (Some (8 # 3), [Fin (-13 # 1)]) = Some p.
Proof.
  destruct (scaler_learns_from_training_rows (KNN := Toy.FirstK)
              (SS := Toy.Centre) Toy.FirstK_new 2 [0; 1; 0; 0; 1]%Z [1]%Z
              [1; 2; 3; 4; 5] [2; 4; 3; 9; 5] eq_refl eq_refl)
    as (Hstep & _).
  destruct (Hstep 1%Z 1%Z (Some (100 # 1)) [] (Some (8 # 3))
              [Fin (-13 # 1)] eq_refl)
    as (p & _ & _ & _ & Hp & Hs & _).
  exists p. split; [exact Hp|]. simpl. exact Hs.
Defined.

(** C9, as the code has it: the search never ends in
    [EmptyCandidateListError].  With no candidates the loops do nothing and
    [np.argmax] of the empty list of aggregates raises [ValueError]; with at
    least one candidate the search returns a selected candidate of the list
    as soon as every candidate's aggregate over the fold array returns. *)
Theorem search_on_candidates {fv tgt : Type}
  {KNN : Estimator fv tgt} {SS : Standardiser fv}
  (KNeighborsRegressor : Z -> estimator) (rng : bitgen) (K : Z)
  (candidates : list Z) (X : list fv) (y : list tgt) (fold : list Z) :
  length y = length X ->
  fold_assignment rng K (length X) = OK fold ->
  hyperparameter_search KNeighborsRegressor rng K candidates X y
  <> Err EmptyCandidateListError /\
  (candidates = [] ->
     hyperparameter_search KNeighborsRegressor rng K candidates X y
     = Err ValueError) /\
  (candidates <> [] ->
     (forall k, In k candidates ->
        exists s, candidate_score (KNeighborsRegressor k) K fold X y = OK s)
     ->
     exists r,
       hyperparameter_search KNeighborsRegressor rng K candidates X y = OK r
       /\ In (best_k r) candidates).
Proof.
  intros Hy Hfold. split; [|split].
  - intros H.
    now apply (python_only_hyperparameter_search KNeighborsRegressor) in H.
  - intros ->. unfold hyperparameter_search. rewrite Hfold. reflexivity.
  - intros Hne Hall. unfold hyperparameter_search. rewrite Hfold. simpl.
    rewrite search_with_scores
      by (try apply (fold_assignment_length _ _ _ _ Hfold); assumption).
    destruct (comprehension_total
                (fun k => candidate_score (KNeighborsRegressor k) K fold X y)
                candidates Hall) as (ms & Hms).
    rewrite Hms. simpl.
    apply select_best_returns; [exact Hne|].
    exact (comprehension_length _ _ _ Hms).
Qed.

(** The notebook's twelve candidates over five rows in two folds. *)
Lemma search_on_candidates_witness :
  exists r,
    hyperparameter_search (KNN := Toy.FirstK) (SS := Toy.Centre)
      Toy.FirstK_new (fun k => (k + 1)%nat) 2
      candidate_neighbourhoods_of_notebook
      [1; 2; 3; 4; 5] [2; 4; 3; 9; 5] = OK r /\
    In (best_k r) candidate_neighbourhoods_of_notebook.
Proof.
  apply (proj2 (proj2 (search_on_candidates (KNN := Toy.FirstK)
                         (SS := Toy.Centre) Toy.FirstK_new
                         (fun k => (k + 1)%nat) 2
                         candidate_neighbourhoods_of_notebook
                         [1; 2; 3; 4; 5] [2; 4; 3; 9; 5]
                         [0; 1; 0; 0; 1]%Z eq_refl eq_refl))).
  - discriminate.
  - intros k Hk. unfold candidate_neighbourhoods_of_notebook in Hk.
    simpl in Hk.
    repeat (destruct Hk as [<-|Hk]; [eexists; reflexivity|]).
    contradiction.
Defined.

(** C9 as stated fails: with the notebook's ten folds and no candidates
    the search ends in [ValueError]. *)
Lemma search_without_candidates :
  hyperparameter_search (KNN := Toy.FirstK) (SS := Toy.Centre)
    Toy.FirstK_new (fun k => (k + 1)%nat) n_folds_of_notebook []
    [1; 2; 3; 4; 5] [2; 4; 3; 9; 5] = Err ValueError /\
  hyperparameter_search (KNN := Toy.FirstK) (SS := Toy.Centre)
    Toy.FirstK_new (fun k => (k + 1)%nat) n_folds_of_notebook []
    [1; 2; 3; 4; 5] [2; 4; 3; 9; 5] <> Err EmptyCandidateListError.
Proof. split; [reflexivity|discriminate]. Qed.

(** * Further properties of the two cells *)

(** ** Rows selected by label *)

Lemma rows_where_ext {A : Type} (p q : Z -> bool) (fold : list Z)
  (a : list A) :
  (forall l, In l fold -> p l = q l) ->
  rows_where p fold a = rows_where q fold a.
Proof.
  unfold rows_where. revert a.
  induction fold as [|l fold IH]; intros [|x a] H; simpl; auto.
  rewrite (H l (or_introl eq_refl)).
  assert (IH' := IH a (fun l' Hl' => H l' (or_intror Hl'))).
  destruct (q l); simpl; now rewrite IH'.
Qed.

Lemma rows_where_all {A : Type} (p : Z -> bool) (fold : list Z) (a : list A) :
  length fold = length a -> (forall l, In l fold -> p l = true) ->
  rows_where p fold a = a.
Proof.
  unfold rows_where. revert a.
  induction fold as [|l fold IH]; intros [|x a] Hlen H; simpl in *;
    try discriminate; auto.
  rewrite (H l (or_introl eq_refl)). simpl.
  f_equal. apply IH; [congruence|]. intros; apply H; now right.
Qed.

Lemma rows_where_none {A : Type} (p : Z -> bool) (fold : list Z)
  (a : list A) :
  (forall l, In l fold -> p l = false) -> rows_where p fold a = [].
Proof.
  unfold rows_where. revert a.
  induction fold as [|l fold IH]; intros [|x a] H; simpl; auto.
  rewrite (H l (or_introl eq_refl)).
  apply IH. intros; apply H; now right.
Qed.

Lemma rows_where_union {A : Type} (p q : Z -> bool) (fold : list Z)
  (a : list A) :
  (forall l, p l = true -> q l = false) ->
  Permutation (rows_where p fold a ++ rows_where q fold a)
              (rows_where (fun l => p l || q l) fold a).
Proof.
  intros Hpq. unfold rows_where. revert a.
  induction fold as [|l fold IH]; intros [|x a]; simpl; auto.
  destruct (p l) eqn:Hp; simpl.
  - rewrite (Hpq l Hp). apply perm_skip, IH.
  - destruct (q l); simpl; [|apply IH].
    eapply perm_trans; [apply Permutation_sym, Permutation_middle|].
    apply perm_skip, IH.
Qed.

(** The test rows of the fold ids below [n], one fold after the other, are
    the rows labelled in [0, n). *)
Lemma test_rows_below {A : Type} (fold : list Z) (a : list A) (n : nat) :
  Permutation
    (flat_map (fun f => test_rows fold f a) (map Z.of_nat (seq 0 n)))
    (rows_where (fun l => (0 <=? l)%Z && (l <? Z.of_nat n)%Z) fold a).
Proof.
  induction n as [|n IH].
  - simpl. rewrite rows_where_none; [constructor|].
    intros l _. simpl. destruct (Z.leb_spec 0 l), (Z.ltb_spec l 0); auto; lia.
  - rewrite seq_S, map_app, flat_map_app.
    cbn [map flat_map Nat.add]. rewrite app_nil_r.
    eapply perm_trans; [apply Permutation_app_tail, IH|].
    unfold test_rows.
    eapply perm_trans; [apply rows_where_union|].
    + intros l H. apply andb_prop in H. destruct H as [_ H].
      apply Z.ltb_lt in H. apply Z.eqb_neq. lia.
    + erewrite rows_where_ext; [reflexivity|].
      intros l _. cbv beta. rewrite Nat2Z.inj_succ.
      destruct (Z.leb_spec 0 l), (Z.ltb_spec l (Z.of_nat n)),
        (Z.eqb_spec l (Z.of_nat n)), (Z.ltb_spec l (Z.succ (Z.of_nat n)));
        simpl; auto; lia.
Qed.

Lemma test_rows_cover {A : Type} (K : Z) (fold : list Z) (a : list A) :
  length fold = length a ->
  (forall l, In l fold -> (0 <= l < K)%Z) ->
  Permutation (flat_map (fun f => test_rows fold f a) (py_range K)) a.
Proof.
  intros Hlen Hrange. unfold py_range.
  eapply perm_trans; [apply test_rows_below|].
  rewrite rows_where_all; [reflexivity|exact Hlen|].
  intros l Hl. specialize (Hrange l Hl).
  destruct (Z.leb_spec 0 l), (Z.ltb_spec l (Z.of_nat (Z.to_nat K)));
    simpl; auto; lia.
Qed.

Lemma fold_assignment_labels (rng : bitgen) (K : Z) (N : nat) :
  (0 < K)%Z ->
  fold_assignment rng K N = OK (rng_shuffle rng (labels K N)) /\
  length (rng_shuffle rng (labels K N)) = N /\
  forall l, In l (rng_shuffle rng (labels K N)) -> (0 <= l < K)%Z.
Proof.
  intros HK. split; [apply fold_assignment_nonzero; lia|].
  destruct (balanced_rearrangement K N (rng_shuffle rng (labels K N)) HK
              (rng_shuffle_perm rng _)) as (Hlen & Hrange & _).
  now split.
Qed.

(** X1: with a positive fold count every instance is held out exactly once:
    the test partitions of the folds 0, ..., K-1, taken together, are the
    dataset again, up to order. *)
Theorem every_instance_tested_once {fv : Type} (rng : bitgen) (K : Z)
  (X : list fv) :
  (0 < K)%Z ->
  exists fold,
    fold_assignment rng K (length X) = OK fold /\
    Permutation (flat_map (fun f => test_rows fold f X) (py_range K)) X.
Proof.
  intros HK.
  destruct (fold_assignment_labels rng K (length X) HK) as (Hf & Hlen & Hr).
  exists (rng_shuffle rng (labels K (length X))). split; [exact Hf|].
  now apply test_rows_cover.
Qed.

Lemma every_instance_tested_once_witness :
  exists fold,
    fold_assignment (fun k => (k + 1)%nat) 2 (length [1; 2; 3; 4; 5]) = OK fold /\
    Permutation (flat_map (fun f => test_rows fold f [1; 2; 3; 4; 5])
                   (py_range 2)) [1; 2; 3; 4; 5].
Proof.
  exact (every_instance_tested_once (fun k => (k + 1)%nat) 2 [1; 2; 3; 4; 5]
           ltac:(lia)).
Defined.

Lemma rows_where_combine {A B : Type} (p : Z -> bool) (fold : list Z)
  (a : list A) (b : list B) :
  length a = length b ->
  combine (rows_where p fold a) (rows_where p fold b)
  = rows_where p fold (combine a b).
Proof.
  unfold rows_where. revert a b.
  induction fold as [|l fold IH]; intros [|x a] [|z b] H; simpl in *;
    try discriminate; auto.
  injection H as H. specialize (IH a b H).
  destruct (p l); simpl; now rewrite IH.
Qed.

(** X2: a split keeps every instance's features with its target: pairing
    the training rows of [X] with the training targets gives the training
    rows of the paired dataset, and likewise for the test rows. *)
Theorem split_keeps_rows_paired {fv tgt : Type} (X : list fv) (y : list tgt)
  (fold : list Z) (i : Z) :
  length fold = length X -> length y = length X ->
  exists X_train X_test y_train y_test,
    split X y fold i = OK (X_train, X_test, y_train, y_test) /\
    combine X_train y_train = training_rows fold i (combine X y) /\
    combine X_test y_test = test_rows fold i (combine X y) /\
    Permutation (combine X_train y_train ++ combine X_test y_test)
                (combine X y).
Proof.
  intros HX Hy.
  exists (training_rows fold i X), (test_rows fold i X),
    (training_rows fold i y), (test_rows fold i y).
  split; [now apply split_ok|].
  assert (Htr : combine (training_rows fold i X) (training_rows fold i y)
                = training_rows fold i (combine X y))
    by (apply rows_where_combine; congruence).
  assert (Hte : combine (test_rows fold i X) (test_rows fold i y)
                = test_rows fold i (combine X y))
    by (apply rows_where_combine; congruence).
  split; [exact Htr|]. split; [exact Hte|].
  rewrite Htr, Hte. apply split_is_partition.
  rewrite length_combine. lia.
Qed.

Lemma split_keeps_rows_paired_witness :
  exists X_train X_test y_train y_test,
    split [1; 2; 3; 4] [2; 4; 6; 9] [0; 1; 0; 1]%Z 1
    = OK (X_train, X_test, y_train, y_test) /\
    combine X_test y_test = [(2, 4); (4, 9)].
Proof.
  destruct (split_keeps_rows_paired [1; 2; 3; 4] [2; 4; 6; 9] [0; 1; 0; 1]%Z
              1 eq_refl eq_refl)
    as (X_train & X_test & y_train & y_test & Hs & _ & Hte & _).
  exists X_train, X_test, y_train, y_test. split; [exact Hs|exact Hte].
Defined.

(** ** Fold counts at the edges *)

(** The exact sizes before the shuffle, by quotient and remainder. *)
Lemma fold_size_labels_div (K : Z) (N : nat) (f : Z) :
  (0 < K)%Z -> (0 <= f < K)%Z ->
  Z.of_nat (fold_size (labels K N) f)
  = (Z.of_nat N / K + if (f <? Z.of_nat N mod K)%Z then 1 else 0)%Z.
Proof.
  intros HK Hf.
  destruct (fold_size_labels K N HK) as (q & r & Hq & Hr & HN & Hc).
  rewrite (Hc f Hf).
  assert (Hdiv : (Z.of_nat N / K)%Z = q).
  { symmetry. apply (Zdiv_unique _ _ q r); lia. }
  assert (Hmod : (Z.of_nat N mod K)%Z = r).
  { symmetry. apply (Zmod_unique _ _ q); lia. }
  now rewrite Hdiv, Hmod.
Qed.

(** X3: for a positive fold count fold [f] holds exactly
    [N // K] instances, and one more when [f < N % K]; the shuffle moves
    labels and changes no size. *)
Theorem fold_sizes_exact (rng : bitgen) (K : Z) (N : nat) :
  (0 < K)%Z ->
  exists fold,
    fold_assignment rng K N = OK fold /\
    forall f, (0 <= f < K)%Z ->
      Z.of_nat (fold_size fold f)
      = (Z.of_nat N / K + if (f <? Z.of_nat N mod K)%Z then 1 else 0)%Z.
Proof.
  intros HK. exists (rng_shuffle rng (labels K N)).
  split; [apply fold_assignment_nonzero; lia|].
  intros f Hf.
  rewrite <- (fold_size_perm _ _ f (rng_shuffle_perm rng (labels K N))).
  now apply fold_size_labels_div.
Qed.

Lemma fold_sizes_exact_witness :
  exists fold,
    fold_assignment (fun k => (k + 1)%nat) 3 11 = OK fold /\
    Z.of_nat (fold_size fold 1) = 4%Z.
Proof.
  destruct (fold_sizes_exact (fun k => (k + 1)%nat) 3 11 ltac:(lia))
    as (fold & Hf & Hs).
  exists fold. split; [exact Hf|]. exact (Hs 1%Z ltac:(lia)).
Defined.

Lemma fold_size_zero_not_in (fold : list Z) (f : Z) :
  fold_size fold f = 0%nat -> forall l, In l fold -> (l =? f)%Z = false.
Proof.
  unfold fold_size. intros H l Hl. apply Z.eqb_neq. intros ->.
  apply (count_occ_not_In Z.eq_dec) in H. contradiction.
Qed.

(** X4: with at least as many folds as instances no fold tests on more than
    one instance: fold [f] holds one instance when [f < N] and none
    otherwise, and a fold without test rows trains on the whole dataset. *)
Theorem more_folds_than_instances {fv : Type} (rng : bitgen) (K : Z)
  (X : list fv) :
  (Z.of_nat (length X) <= K)%Z ->
  exists fold,
    fold_assignment rng K (length X) = OK fold /\
    forall f, (0 <= f < K)%Z ->
      length (test_rows fold f X)
      = (if (f <? Z.of_nat (length X))%Z then 1%nat else 0%nat) /\
      ((Z.of_nat (length X) <= f)%Z ->
         test_rows fold f X = [] /\ training_rows fold f X = X).
Proof.
  intros HNK. destruct (Z.eq_dec K 0) as [->|HK0].
  - assert (HX : length X = 0%nat) by lia. rewrite HX.
    exists []. split; [reflexivity|]. intros f Hf. lia.
  - assert (HK : (0 < K)%Z) by lia.
    destruct (fold_assignment_labels rng K (length X) HK)
      as (Hf & Hlen & Hr).
    set (fold := rng_shuffle rng (labels K (length X))) in *.
    exists fold. split; [exact Hf|]. intros f Hrange.
    assert (Hsize : fold_size fold f
                    = if (f <? Z.of_nat (length X))%Z then 1%nat else 0%nat).
    { unfold fold.
      rewrite <- (fold_size_perm _ _ f (rng_shuffle_perm rng _)).
      destruct (fold_size_labels K (length X) HK)
        as (q & r & Hq & Hrr & HN & Hc).
      specialize (Hc f Hrange).
      destruct (Z.ltb_spec f r), (Z.ltb_spec f (Z.of_nat (length X))); nia. }
    split; [now rewrite length_test_rows|].
    intros Hge.
    destruct (Z.ltb_spec f (Z.of_nat (length X))); [lia|].
    pose proof (fold_size_zero_not_in fold f Hsize) as Hnot.
    split.
    + unfold test_rows. now apply rows_where_none.
    + unfold training_rows. apply rows_where_all; [exact Hlen|].
      intros l Hl. now rewrite (Hnot l Hl).
Qed.

Lemma more_folds_than_instances_witness :
  exists fold,
    fold_assignment (fun _ => 0%nat) 3 (length [1; 2]) = OK fold /\
    test_rows fold 2 [1; 2] = [] /\ training_rows fold 2 [1; 2] = [1; 2].
Proof.
  destruct (more_folds_than_instances (fun _ => 0%nat) 3 [1; 2]
              ltac:(simpl; lia)) as (fold & Hf & H).
  exists fold. split; [exact Hf|].
  exact (proj2 (H 2%Z ltac:(lia)) ltac:(simpl; lia)).
Defined.

(** X5: with [n_folds = 1] the only fold holds every instance, so the one
    round fits the estimator on no rows at all and scores it on the whole
    dataset. *)
Theorem single_fold_trains_on_nothing {fv tgt : Type}
  {LR : Estimator fv tgt} (LinearRegression : unit -> estimator)
  (rng : bitgen) (X : list fv) (y : list tgt) :
  length y = length X ->
  cross_validation LinearRegression rng 1 X y
  = (s <- fit_and_score (LinearRegression tt) [] X [] y ;;
     OK ([s], cv_report [s])).
Proof.
  intros Hy.
  destruct (fold_assignment_labels rng 1 (length X) ltac:(lia))
    as (Hf & Hlen & Hr).
  set (fold := rng_shuffle rng (labels 1 (length X))) in *.
  assert (Hzero : forall l, In l fold -> (l =? 0)%Z = true).
  { intros l Hl. apply Z.eqb_eq. specialize (Hr l Hl). lia. }
  unfold cross_validation. rewrite Hf. simpl.
  unfold cross_validate.
  rewrite cv_loop_comprehension by congruence.
  change (py_range 1) with [0%Z]. simpl.
  assert (Htr : forall (A : Type) (a : list A), training_rows fold 0 a = []).
  { intros A a. unfold training_rows. apply rows_where_none.
    intros l Hl. now rewrite (Hzero l Hl). }
  assert (Hte : forall (A : Type) (a : list A),
            length fold = length a -> test_rows fold 0 a = a).
  { intros A a Ha. unfold test_rows. now apply rows_where_all. }
  rewrite !Htr, !Hte by congruence.
  destruct (fit_and_score _ _ _ _ _) as [s|e]; reflexivity.
Qed.

Lemma single_fold_trains_on_nothing_witness :
  cross_validation (LR := Toy.MeanRegressor) (fun _ => None)
    (fun k => k) 1 [1; 2; 3] [2; 4; 7] = Err ValueError.
Proof.
  exact (single_fold_trains_on_nothing (LR := Toy.MeanRegressor)
           (fun _ => None) (fun k => k) [1; 2; 3] [2; 4; 7] eq_refl).
Defined.

Lemma py_range_negative (K : Z) : (K < 0)%Z -> py_range K = [].
Proof. intros H. destruct K; try lia. reflexivity. Qed.

(** X6: a negative fold count is accepted without complaint by the cross
    validation cell: labels are still drawn, but no round is run, no
    estimator is fitted, and the report is NaN. *)
Theorem negative_fold_count_reports_nan {fv tgt : Type}
  {LR : Estimator fv tgt} (LinearRegression : unit -> estimator)
  (rng : bitgen) (K : Z) (X : list fv) (y : list tgt) :
  (K < 0)%Z ->
  cross_validation LinearRegression rng K X y = OK ([], NaN).
Proof.
  intros HK. unfold cross_validation.
  rewrite fold_assignment_nonzero by lia. simpl.
  unfold cross_validate. now rewrite py_range_negative.
Qed.

Lemma negative_fold_count_reports_nan_witness :
  cross_validation (LR := Toy.MeanRegressor) (fun _ => None)
    (fun k => k) (-3) [1; 2; 3] [2; 4; 7] = OK ([], NaN).
Proof.
  exact (negative_fold_count_reports_nan (LR := Toy.MeanRegressor)
           (fun _ => None) (fun k => k) (-3) [1; 2; 3] [2; 4; 7]
           ltac:(lia)).
Defined.

Lemma candidate_loop_no_folds {fv tgt : Type} {KNN : Estimator fv tgt}
  {SS : Standardiser fv} (KNeighborsRegressor : Z -> estimator)
  (X : list fv) (y : list tgt) (fold : list Z) (K : Z)
  (candidates : list Z) (scaler : scaler_obj) (nperf : list float) :
  py_range K = [] ->
  candidate_loop KNeighborsRegressor X y fold K candidates scaler nperf
  = OK (scaler, nperf ++ map (fun _ => NaN) candidates).
Proof.
  intros HK. revert nperf.
  induction candidates as [|k candidates IH]; intros nperf; simpl.
  - now rewrite app_nil_r.
  - rewrite HK. simpl. rewrite IH. now rewrite <- app_assoc.
Qed.

(** X7: with a negative fold count the search runs no round either: every
    candidate's aggregate is NaN, the scaler and the estimators are never
    called, and the search returns the first candidate of the list with a
    performance of NaN. *)
Theorem negative_fold_count_selects_first {fv tgt : Type}
  {KNN : Estimator fv tgt} {SS : Standardiser fv}
  (KNeighborsRegressor : Z -> estimator) (rng : bitgen) (K : Z)
  (k0 : Z) (candidates : list Z) (X : list fv) (y : list tgt) :
  (K < 0)%Z ->
  hyperparameter_search KNeighborsRegressor rng K (k0 :: candidates) X y
  = OK {| neighbourhood_perf := map (fun _ => NaN) (k0 :: candidates);
          best_neighbourhood := 0; best_k := k0; best_perf := NaN |}.
Proof.
  intros HK. unfold hyperparameter_search.
  rewrite fold_assignment_nonzero by lia. simpl bind.
  unfold search_with.
  rewrite candidate_loop_no_folds by now apply py_range_negative.
  reflexivity.
Qed.

Lemma negative_fold_count_selects_first_witness :
  (r <- hyperparameter_search (KNN := Toy.FirstK) (SS := Toy.Centre)
          Toy.FirstK_new (fun k => k) (-1) [7; 3; 5]%Z
          [1; 2; 3] [2; 4; 7] ;;
   OK (search_report r)) = OK (7%Z, NaN).
Proof.
  rewrite (negative_fold_count_selects_first (KNN := Toy.FirstK)
             (SS := Toy.Centre) Toy.FirstK_new (fun k => k) (-1) 7
             [3; 5]%Z [1; 2; 3] [2; 4; 7] ltac:(lia)).
  reflexivity.
Defined.

(** ** How a run fails *)

(** A comprehension raises exactly the exception of the first element whose
    body raises. *)
Lemma comprehension_first_error {A B : Type} (f : A -> result B)
  (xs : list A) (e : exn) :
  comprehension f xs = Err e <->
  exists n x,
    nth_error xs n = Some x /\ f x = Err e /\
    forall m x', (m < n)%nat -> nth_error xs m = Some x' ->
      exists v, f x' = OK v.
Proof.
  induction xs as [|x0 xs IH]; simpl.
  - split; [discriminate|]. intros (n & x & Hn & _). destruct n; discriminate.
  - destruct (f x0) as [v0|e0] eqn:Hf0; simpl.
    + transitivity (comprehension f xs = Err e).
      { destruct (comprehension f xs); simpl; split; intros H;
          congruence. }
      rewrite IH. split.
      * intros (n & x & Hn & Hx & Hprev). exists (S n), x.
        repeat split; auto.
        intros [|m] x' Hm Hx'; simpl in Hx'.
        -- injection Hx' as <-. now exists v0.
        -- apply (Hprev m x'); [lia|exact Hx'].
      * intros (n & x & Hn & Hx & Hprev). destruct n as [|n]; simpl in Hn.
        -- injection Hn as <-. congruence.
        -- exists n, x. repeat split; auto.
           intros m x' Hm Hx'. apply (Hprev (S m) x'); [lia|exact Hx'].
    + split.
      * intros H. injection H as ->. exists 0%nat, x0.
        repeat split; auto. intros m x' Hm. lia.
      * intros (n & x & Hn & Hx & Hprev). destruct n as [|n]; simpl in Hn.
        -- injection Hn as <-. congruence.
        -- destruct (Hprev 0%nat x0 ltac:(lia) eq_refl) as (v & Hv).
           congruence.
Qed.

Lemma nth_error_py_range_inv (K : Z) (n : nat) (x : Z) :
  nth_error (py_range K) n = Some x -> x = Z.of_nat n /\ (0 <= x < K)%Z.
Proof.
  unfold py_range. rewrite nth_error_map, nth_error_seq.
  destruct (Nat.ltb_spec n (Z.to_nat K)) as [Hlt|Hge]; simpl; intros Hn;
    [|discriminate].
  injection Hn as <-. lia.
Qed.

(** Over the fold ids the first element that raises is the smallest id. *)
Lemma comprehension_py_range_first_error {B : Type} (g : Z -> result B)
  (K : Z) (e : exn) :
  comprehension g (py_range K) = Err e <->
  exists f, (0 <= f < K)%Z /\ g f = Err e /\
    forall f', (0 <= f' < f)%Z -> exists v, g f' = OK v.
Proof.
  rewrite comprehension_first_error. split.
  - intros (n & x & Hn & Hx & Hprev).
    destruct (nth_error_py_range_inv K n x Hn) as [-> Hr].
    exists (Z.of_nat n). repeat split; try lia; auto.
    intros f' Hf'. apply (Hprev (Z.to_nat f') f'); [lia|].
    apply nth_error_py_range. lia.
  - intros (f & Hf & Hg & Hprev). exists (Z.to_nat f), f.
    split; [now apply nth_error_py_range|]. split; [exact Hg|].
    intros m x' Hm Hx'.
    destruct (nth_error_py_range_inv K m x' Hx') as [-> Hr].
    apply Hprev. lia.
Qed.

(** X8: a fold loop that fails ends with the exception of the first round
    that raises: the run of cell f6eda8ee raises [e] exactly when some fold's
    fit or score raises [e] and every earlier fold's round returned; no
    failing fold is skipped and no later fold is reached. *)
Theorem cross_validate_first_failure {fv tgt : Type} {LR : Estimator fv tgt}
  (LinearRegression : unit -> estimator) (K : Z) (fold : list Z)
  (X : list fv) (y : list tgt) (e : exn) :
  length fold = length X -> length y = length X ->
  (cross_validate LinearRegression K fold X y = Err e <->
   exists f, (0 <= f < K)%Z /\
     fit_and_score (LinearRegression tt)
       (training_rows fold f X) (test_rows fold f X)
       (training_rows fold f y) (test_rows fold f y) = Err e /\
     forall f', (0 <= f' < f)%Z ->
       exists s, fit_and_score (LinearRegression tt)
                   (training_rows fold f' X) (test_rows fold f' X)
                   (training_rows fold f' y) (test_rows fold f' y) = OK s).
Proof.
  intros HX Hy. unfold cross_validate.
  rewrite cv_loop_comprehension by assumption.
  rewrite <- (comprehension_py_range_first_error
                (fun f => fit_and_score (LinearRegression tt)
                            (training_rows fold f X) (test_rows fold f X)
                            (training_rows fold f y) (test_rows fold f y))).
  destruct (comprehension _ (py_range K)) as [ss|e']; simpl;
    split; intros H; congruence.
Qed.

(** Two instances in three folds with the validating regressor: folds 0 and
    1 return, fold 2 has no test rows and raises. *)
Lemma cross_validate_first_failure_witness :
  cross_validate (LR := Toy.MeanRegressor) (fun _ => None) 3 [1; 0]%Z
    [1; 2] [2; 4] = Err ValueError.
Proof.
  apply (proj2 (cross_validate_first_failure (LR := Toy.MeanRegressor)
                  (fun _ => None) 3 [1; 0]%Z [1; 2] [2; 4] ValueError
                  eq_refl eq_refl)).
  exists 2%Z. split; [lia|]. split; [reflexivity|].
  intros f' Hf'.
  assert (Hcases : f' = 0%Z \/ f' = 1%Z) by lia.
  destruct Hcases as [-> | ->]; eexists; reflexivity.
Defined.

(** X9: the search fails in two ways only.  With no candidates [np.argmax]
    raises [ValueError]; otherwise it raises what the first failing
    candidate's cross validation raised, after every earlier candidate was
    evaluated in full.  So a search over candidates whose cross validations
    all return never fails. *)
Theorem search_first_failure {fv tgt : Type} {KNN : Estimator fv tgt}
  {SS : Standardiser fv} (KNeighborsRegressor : Z -> estimator) (K : Z)
  (fold : list Z) (candidates : list Z) (X : list fv) (y : list tgt)
  (e : exn) :
  length fold = length X -> length y = length X ->
  (search_with KNeighborsRegressor K fold candidates X y = Err e <->
   (candidates = [] /\ e = ValueError) \/
   exists n k,
     nth_error candidates n = Some k /\
     candidate_score (KNeighborsRegressor k) K fold X y = Err e /\
     forall m k', (m < n)%nat -> nth_error candidates m = Some k' ->
       exists s, candidate_score (KNeighborsRegressor k') K fold X y = OK s).
Proof.
  intros HX Hy. rewrite search_with_scores by assumption.
  rewrite <- (comprehension_first_error
                (fun k => candidate_score (KNeighborsRegressor k) K fold X y)).
  destruct (comprehension _ candidates) as [ms|e'] eqn:Hc; simpl.
  - destruct candidates as [|k0 candidates].
    + simpl in Hc. injection Hc as <-. unfold select_best. simpl.
      split; [intros H; left; split; congruence|].
      intros [[_ ->]|H]; [reflexivity|discriminate].
    + destruct (select_best_returns (k0 :: candidates) ms
                  ltac:(discriminate) (comprehension_length _ _ _ Hc))
        as (r & Hr & _).
      rewrite Hr. split; [discriminate|].
      intros [[H _]|H]; discriminate.
  - split; [intros H; right; congruence|].
    intros [[-> _]|H]; [discriminate|congruence].
Qed.

Lemma search_first_failure_witness :
  search_with (KNN := Toy.FirstK) (SS := Toy.Centre) Toy.FirstK_new 2
    [0; 1; 0; 0; 1]%Z [] [1; 2; 3; 4; 5] [2; 4; 3; 9; 5] = Err ValueError.
Proof.
  apply (proj2 (search_first_failure (KNN := Toy.FirstK) (SS := Toy.Centre)
                  Toy.FirstK_new 2 [0; 1; 0; 0; 1]%Z [] [1; 2; 3; 4; 5]
                  [2; 4; 3; 9; 5] ValueError eq_refl eq_refl)).
  left. now split.
Defined.

(** ** NaN among the aggregates *)

Lemma fold_left_fadd_nan (a : list float) : fold_left fadd a NaN = NaN.
Proof. induction a as [|x a IH]; simpl; auto. Qed.

Lemma np_sum_nan (a : list float) (acc : float) :
  In NaN a -> fold_left fadd a acc = NaN.
Proof.
  revert acc. induction a as [|x a IH]; intros acc H; simpl in *;
    [contradiction|].
  destruct H as [->|H].
  - destruct acc; simpl; apply fold_left_fadd_nan.
  - now apply IH.
Qed.

Lemma np_mean_nan (a : list float) : In NaN a -> np_mean a = NaN.
Proof.
  intros H. destruct a as [|x a]; [contradiction|].
  unfold np_mean, np_sum. now rewrite np_sum_nan.
Qed.





(** ** What the search returns *)

(** X11: the performance the search reports belongs to the candidate it
    reports: [best_perf] is the cross-validation aggregate of [best_k] over
    the run's fold array, and [best_k] is one of the candidates. *)
Theorem best_perf_is_score_of_best_k {fv tgt : Type}
  {KNN : Estimator fv tgt} {SS : Standardiser fv}
  (KNeighborsRegressor : Z -> estimator) (rng : bitgen) (K : Z)
  (candidates : list Z) (X : list fv) (y : list tgt) (r : search_result) :
  length y = length X ->
  hyperparameter_search KNeighborsRegressor rng K candidates X y = OK r ->
  exists fold,
    fold_assignment rng K (length X) = OK fold /\
    In (best_k r) candidates /\
    candidate_score (KNeighborsRegressor (best_k r)) K fold X y
    = OK (best_perf r).
Proof.
  intros Hy H.
  destruct (search_decompose KNeighborsRegressor rng K candidates X y r Hy H)
    as (fold & Hfold & _ & Hc & Hsel).
  destruct (select_best_fields _ _ _ Hsel) as (_ & _ & Hk & Hp).
  exists fold. split; [exact Hfold|].
  split; [now apply nth_error_In in Hk|].
  destruct (comprehension_nth _ _ _ _ _ Hc Hk) as (v & Hv & Hnth).
  congruence.
Qed.

Lemma best_perf_is_score_of_best_k_witness :
  exists fold,
    fold_assignment (fun k => (k + 1)%nat) 2 5 = OK fold /\
    candidate_score (E := Toy.FirstK) (SS := Toy.Centre)
      (Toy.FirstK_new 3) 2 fold [1; 2; 3; 4; 5] [2; 4; 3; 9; 5]
    = OK (Fin (-1055 # 72)).
Proof.
  destruct (best_perf_is_score_of_best_k (KNN := Toy.FirstK)
              (SS := Toy.Centre) Toy.FirstK_new (fun k => (k + 1)%nat) 2
              [1; 2; 3]%Z [1; 2; 3; 4; 5] [2; 4; 3; 9; 5]
              {| neighbourhood_perf :=
                   [Fin (-43 # 2); Fin (-298 # 16); Fin (-1055 # 72)];
                 best_neighbourhood := 2; best_k := 3;
                 best_perf := Fin (-1055 # 72) |}
              eq_refl eq_refl)
    as (fold & Hf & _ & Hs).
  exists fold. split; [exact Hf|exact Hs].
Defined.

Lemma comprehension_app {A B : Type} (f : A -> result B) (xs ys : list A) :
  comprehension f (xs ++ ys)
  = (a <- comprehension f xs ;; b <- comprehension f ys ;; OK (a ++ b)).
Proof.
  induction xs as [|x xs IH]; simpl.
  - destruct (comprehension f ys); reflexivity.
  - destruct (f x) as [v|e]; simpl; [|reflexivity]. rewrite IH.
    destruct (comprehension f xs) as [a|e]; simpl; [|reflexivity].
    destruct (comprehension f ys) as [b|e]; reflexivity.
Qed.

(** X12: a candidate's aggregate does not depend on which other candidates
    are searched with it: when the search over a list returns, the search
    over a leading or trailing part of the list returns the same aggregates
    for the candidates it keeps. *)
Theorem scores_independent_of_other_candidates {fv tgt : Type}
  {KNN : Estimator fv tgt} {SS : Standardiser fv}
  (KNeighborsRegressor : Z -> estimator) (rng : bitgen) (K : Z)
  (c1 c2 : list Z) (X : list fv) (y : list tgt) (r : search_result) :
  length y = length X ->
  hyperparameter_search KNeighborsRegressor rng K (c1 ++ c2) X y = OK r ->
  (c1 <> [] ->
     exists r1,
       hyperparameter_search KNeighborsRegressor rng K c1 X y = OK r1 /\
       neighbourhood_perf r1 = firstn (length c1) (neighbourhood_perf r)) /\
  (c2 <> [] ->
     exists r2,
       hyperparameter_search KNeighborsRegressor rng K c2 X y = OK r2 /\
       neighbourhood_perf r2 = skipn (length c1) (neighbourhood_perf r)).
Proof.
  intros Hy H.
  destruct (search_decompose KNeighborsRegressor rng K (c1 ++ c2) X y r Hy H)
    as (fold & Hfold & Hlen & Hc & _).
  rewrite comprehension_app in Hc.
  destruct (comprehension _ c1) as [a|e] eqn:Ha; simpl in Hc; [|discriminate].
  destruct (comprehension _ c2) as [b|e] eqn:Hb; simpl in Hc; [|discriminate].
  injection Hc as Hn.
  pose proof (comprehension_length _ _ _ Ha) as Hla.
  pose proof (comprehension_length _ _ _ Hb) as Hlb.
  assert (Hrun : forall c ms, c <> [] ->
            comprehension
              (fun k => candidate_score (KNeighborsRegressor k) K fold X y) c
            = OK ms ->
            exists r', hyperparameter_search KNeighborsRegressor rng K c X y
                       = OK r' /\ neighbourhood_perf r' = ms).
  { intros c ms Hne Hms. unfold hyperparameter_search. rewrite Hfold. simpl.
    rewrite search_with_scores by assumption. rewrite Hms. simpl.
    destruct (select_best_returns c ms Hne (comprehension_length _ _ _ Hms))
      as (r' & Hr' & _).
    exists r'. split; [exact Hr'|].
    now destruct (select_best_fields _ _ _ Hr'). }
  split; intros Hne.
  - destruct (Hrun c1 a Hne Ha) as (r1 & Hr1 & Hp1).
    exists r1. split; [exact Hr1|].
    rewrite <- Hn, <- Hla, firstn_app, Nat.sub_diag, firstn_all. simpl.
    now rewrite app_nil_r.
  - destruct (Hrun c2 b Hne Hb) as (r2 & Hr2 & Hp2).
    exists r2. split; [exact Hr2|].
    rewrite <- Hn, <- Hla, skipn_app, Nat.sub_diag, skipn_all. simpl.
    exact Hp2.
Qed.

Lemma scores_independent_of_other_candidates_witness :
  exists r1,
    hyperparameter_search (KNN := Toy.FirstK) (SS := Toy.Centre)
      Toy.FirstK_new (fun k => (k + 1)%nat) 2 [1; 2]%Z
      [1; 2; 3; 4; 5] [2; 4; 3; 9; 5] = OK r1 /\
    neighbourhood_perf r1 = [Fin (-43 # 2); Fin (-298 # 16)].
Proof.
  exact (proj1 (scores_independent_of_other_candidates (KNN := Toy.FirstK)
                  (SS := Toy.Centre) Toy.FirstK_new (fun k => (k + 1)%nat) 2
                  [1; 2]%Z [3]%Z [1; 2; 3; 4; 5] [2; 4; 3; 9; 5]
                  {| neighbourhood_perf :=
                       [Fin (-43 # 2); Fin (-298 # 16); Fin (-1055 # 72)];
                     best_neighbourhood := 2; best_k := 3;
                     best_perf := Fin (-1055 # 72) |}
                  eq_refl eq_refl) ltac:(discriminate)).
Defined.

(** ** The search's fold loop and the pipeline *)

(** X13: what the search does by hand in each fold (refit the scaler on the
    training rows, transform, fit the regressor, transform the test rows,
    score) gives the scores that the fold loop of cell f6eda8ee gives for
    the scaler-and-regressor pipeline: either loop returns a list of scores
    exactly when the other returns the same list.  (When they fail they need
    not raise the same exception: the pipeline fits the regressor before it
    transforms the test rows.) *)
Theorem fold_loop_is_pipeline_cross_validation {fv tgt : Type}
  {KNN : Estimator fv tgt} {SS : Standardiser fv}
  (KNeighborsRegressor : Z -> estimator) (X : list fv) (y : list tgt)
  (fold : list Z) (k : Z) (ids : list Z) (scaler : scaler_obj)
  (perf perf' : list float) :
  scores_of (fold_loop KNeighborsRegressor X y fold k ids scaler perf)
  = OK perf' <->
  cv_loop (LR := Pipeline SS KNN)
    (fun _ => (StandardScaler tt, KNeighborsRegressor k)) X y fold ids perf
  = OK perf'.
Proof.
  revert scaler perf. induction ids as [|i ids IH]; intros scaler perf.
  - simpl. reflexivity.
  - simpl.
    destruct (split X y fold i) as [[[[X_train X_test] y_train] y_test]|e];
      simpl; [|split; discriminate].
    unfold fit_transform.
    destruct (learn X_train) as [e|p]; simpl; [split; discriminate|].
    destruct (rescale p X_train) as [e|Z_train]; simpl;
      [split; discriminate|].
    destruct (rescale p X_test) as [e|Z_test] eqn:Ht; simpl;
      destruct (fit (KNeighborsRegressor k) Z_train y_train) as [e'|mdl];
      simpl; try (split; discriminate);
      try (rewrite Ht; simpl; split; discriminate).
    rewrite Ht. simpl.
    destruct (score mdl Z_test y_test) as [e|s]; simpl;
      [split; discriminate|].
    apply IH.
Qed.

Lemma fold_loop_is_pipeline_cross_validation_witness :
  cv_loop (LR := Pipeline Toy.Centre Toy.FirstK)
    (fun _ => (StandardScaler tt, Toy.FirstK_new 1))
    [1; 2; 3; 4; 5] [2; 4; 3; 9; 5] [0; 1; 0; 0; 1]%Z [1]%Z []
  = OK [Fin (-13 # 1)].
Proof.
  apply (proj1 (fold_loop_is_pipeline_cross_validation (KNN := Toy.FirstK)
                  (SS := Toy.Centre) Toy.FirstK_new [1; 2; 3; 4; 5]
                  [2; 4; 3; 9; 5] [0; 1; 0; 0; 1]%Z 1 [1]%Z
                  (Some (100 # 1)) [] [Fin (-13 # 1)])).
  reflexivity.
Defined.

(** ** When the report is not a number *)

Lemma numbers_are_finite (perf : list float) :
  ~ In NaN perf -> exists qs, perf = map Fin qs.
Proof.
  induction perf as [|x perf IH]; intros H.
  - now exists [].
  - destruct IH as (qs & ->); [intros Hin; apply H; now right|].
    destruct x as [|q]; [exfalso; apply H; now left|].
    now exists (q :: qs).
Qed.

Lemma nan_or_numbers (perf : list float) : In NaN perf \/ ~ In NaN perf.
Proof.
  induction perf as [|x perf [IH|IH]].
  - right. intros [].
  - left. now right.
  - destruct x as [|q]; [left; now left|].
    right. intros [H|H]; [discriminate|contradiction].
Qed.

Lemma cv_report_nan_iff (perf : list float) :
  cv_report perf = NaN <-> perf = [] \/ In NaN perf.
Proof.
  unfold cv_report. split.
  - intros H. destruct perf as [|x perf]; [now left|]. right.
    destruct (nan_or_numbers (x :: perf)) as [Hin|Hnot]; [exact Hin|].
    exfalso. destruct (numbers_are_finite _ Hnot) as (qs & Hqs).
    rewrite Hqs in H. rewrite np_mean_finite in H; [discriminate|].
    intros ->. discriminate.
  - intros [->|Hin]; [reflexivity|].
    now rewrite np_mean_nan.
Qed.

Lemma cv_loop_length {fv tgt : Type} {LR : Estimator fv tgt}
  (LinearRegression : unit -> estimator) (X : list fv) (y : list tgt)
  (fold ids : list Z) (perf perf' : list float) :
  cv_loop LinearRegression X y fold ids perf = OK perf' ->
  length perf' = (length perf + length ids)%nat.
Proof.
  revert perf. induction ids as [|i ids IH]; intros perf H; simpl in H.
  - injection H as <-. simpl. lia.
  - destruct (split X y fold i) as [[[[X_train X_test] y_train] y_test]|e];
      simpl in H; [|discriminate].
    destruct (call (fit _ X_train y_train)) as [mdl|e]; simpl in H;
      [|discriminate].
    destruct (call (score mdl X_test y_test)) as [s|e]; simpl in H;
      [|discriminate].
    apply IH in H. rewrite length_app in H. simpl in *. lia.
Qed.

(** X14: the cross validation cell reports NaN exactly when no round was
    run (a fold count of 0 or less) or when the score of at least one fold
    is NaN; otherwise the report is a number.  One fold whose score is not
    a number (such as a score undefined on a single test instance) is
    enough to lose the whole estimate. *)
Theorem report_is_nan_iff {fv tgt : Type} {LR : Estimator fv tgt}
  (LinearRegression : unit -> estimator) (rng : bitgen) (K : Z)
  (X : list fv) (y : list tgt) (perf : list float) (report : float) :
  cross_validation LinearRegression rng K X y = OK (perf, report) ->
  (report = NaN <-> (K <= 0)%Z \/ In NaN perf).
Proof.
  intros H. unfold cross_validation in H.
  destruct (fold_assignment rng K (length X)) as [fold|e]; simpl in H;
    [|discriminate].
  destruct (cross_validate LinearRegression K fold X y) as [perf0|e] eqn:Hcv;
    simpl in H; [|discriminate].
  injection H as -> <-.
  unfold cross_validate in Hcv. apply cv_loop_length in Hcv.
  rewrite length_py_range in Hcv. simpl in Hcv.
  rewrite cv_report_nan_iff.
  split; intros [Hl|Hr]; auto.
  - subst perf. simpl in Hcv. left. lia.
  - destruct perf as [|x perf]; [now left|]. simpl in Hcv. lia.
Qed.

Lemma report_is_nan_iff_witness :
  Fin (-22750 # 1000) = NaN <->
  (2 <= 0)%Z \/ In NaN [Fin (-25 # 1); Fin (-41 # 2)].
Proof.
  exact (report_is_nan_iff (LR := Toy.MeanRegressor) (fun _ => None)
           (fun _ => 0%nat) 2 [1; 2; 3; 4] [2; 4; 6; 9]
           [Fin (-25 # 1); Fin (-41 # 2)] (Fin (-22750 # 1000)) eq_refl).
Defined.

(** * The sweeps of the kNN and CART notebooks *)

Lemma length_np_arange (start stop : Z) :
  length (np_arange start stop) = Z.to_nat (stop - start).
Proof. unfold np_arange. now rewrite length_map, length_seq. Qed.

Lemma nth_error_np_arange (start stop : Z) (n : nat) :
  nth_error (np_arange start stop) n
  = if (n <? Z.to_nat (stop - start))%nat
    then Some (start + Z.of_nat n)%Z else None.
Proof.
  unfold np_arange. rewrite nth_error_map, nth_error_seq.
  destruct (n <? Z.to_nat (stop - start))%nat; reflexivity.
Qed.

(** ** [np.argmin] on numbers, through [np.argmax] on the negated array *)

Lemma fle_fneg (x y : float) : fle (fneg x) (fneg y) = fle y x.
Proof.
  destruct x as [|p], y as [|q]; simpl; try reflexivity.
  destruct (Qle_bool q p) eqn:H.
  - apply Qle_bool_iff. apply Qopp_le_compat. now apply Qle_bool_iff.
  - destruct (Qle_bool (- p) (- q)) eqn:H'; [|reflexivity].
    apply Qle_bool_iff in H'. apply Qopp_le_compat in H'.
    rewrite !Qopp_involutive in H'. apply Qle_bool_iff in H'. congruence.
Qed.

Lemma isnan_fneg (x : float) : isnan (fneg x) = isnan x.
Proof. now destruct x. Qed.

Lemma argmin_scan_fneg (ip : list float) :
  forall mp min_ind i,
    argmin_scan mp min_ind i ip
    = argmax_scan (fneg mp) min_ind i (map fneg ip).
Proof.
  induction ip as [|x ip IH]; intros mp min_ind i; simpl; [reflexivity|].
  rewrite fle_fneg, isnan_fneg.
  destruct (fle mp x); simpl; [apply IH|].
  destruct (isnan x); [reflexivity|apply IH].
Qed.

Lemma np_argmin_fneg (a : list float) :
  np_argmin a = np_argmax (map fneg a).
Proof.
  destruct a as [|mp ip]; simpl; [reflexivity|].
  rewrite isnan_fneg. destruct (isnan mp); [reflexivity|].
  now rewrite argmin_scan_fneg.
Qed.

Lemma np_argmin_spec (a : list float) :
  a <> [] -> Forall finite a ->
  exists r b,
    np_argmin a = OK r /\ nth_error a r = Some b /\
    forall j y, nth_error a j = Some y ->
      fle b y = true /\ ((j < r)%nat -> fle y b = false).
Proof.
  intros Hne Hfin.
  destruct (np_argmax_spec (map fneg a)) as (r & nb & Hr & Hb & Hmax).
  - intros H. apply map_eq_nil in H. contradiction.
  - apply Forall_map. eapply Forall_impl; [|exact Hfin].
    intros x Hx. unfold finite in *. now rewrite isnan_fneg.
  - rewrite nth_error_map in Hb.
    destruct (nth_error a r) as [b|] eqn:Hbr; simpl in Hb; [|discriminate].
    injection Hb as <-.
    exists r, b. split; [now rewrite np_argmin_fneg|]. split; [exact Hbr|].
    intros j y Hy.
    destruct (Hmax j (fneg y)) as [H1 H2].
    { now rewrite nth_error_map, Hy. }
    rewrite fle_fneg in H1. split; [exact H1|].
    intros Hj. specialize (H2 Hj). now rewrite fle_fneg in H2.
Qed.

(** ** The sweeps *)

Section Sweep_facts.
Context {fv lbl : Type} {M : Sweep.Model fv lbl}.
Variable construct : Z -> Sweep.model.
Variable metric : list lbl -> list lbl -> sk_result float.
Variables (X_train : list fv) (y_train : list lbl) (X : list fv)
  (y : list lbl).

Lemma sweep_loop_comprehension (ks : list Z) (acc : list float) :
  Sweep.loop construct metric X_train y_train X y ks acc
  = (ss <- comprehension
             (Sweep.evaluate construct metric X_train y_train X y) ks ;;
     OK (acc ++ ss)).
Proof.
  revert acc. induction ks as [|k ks IH]; intros acc; simpl.
  - now rewrite app_nil_r.
  - unfold Sweep.evaluate at 1.
    destruct (call (Sweep.fit _ _ _)) as [mdl|e]; simpl; [|reflexivity].
    destruct (call (Sweep.predict mdl X)) as [y_pred|e]; simpl;
      [|reflexivity].
    destruct (call (metric y y_pred)) as [s|e]; simpl; [|reflexivity].
    rewrite IH.
    destruct (comprehension _ ks) as [ss|e]; simpl; [|reflexivity].
    now rewrite <- app_assoc.
Qed.

(** What a sweep that returns went through. *)
Lemma sweep_fields (start : Z) (select : list float -> result nat)
  (n_points : Z) (o : Sweep.outcome) :
  Sweep.sweep construct metric start select n_points X_train y_train X y
  = OK o ->
  comprehension (Sweep.evaluate construct metric X_train y_train X y)
    (np_arange start (n_points + 1)) = OK (Sweep.scores o) /\
  select (Sweep.scores o) = OK (Sweep.best o) /\
  nth_error (np_arange start (n_points + 1)) (Sweep.best o)
  = Some (Sweep.value_at_best o) /\
  nth_error (Sweep.scores o) (Sweep.best o) = Some (Sweep.score_at_best o).
Proof.
  unfold Sweep.sweep, py_getitem. intros H.
  rewrite sweep_loop_comprehension in H.
  destruct (comprehension _ (np_arange start (n_points + 1))) as [ss|e];
    simpl in H; [|discriminate].
  destruct (select ss) as [b|e] eqn:Hsel; simpl in H; [|discriminate].
  destruct (nth_error (np_arange start (n_points + 1)) b) as [k|] eqn:Hk;
    simpl in H; [|discriminate].
  destruct (nth_error ss b) as [a|] eqn:Ha; simpl in H; [|discriminate].
  injection H as <-. simpl. auto.
Qed.

(** The value read at the picked position is [start] plus the position, it
    lies in [start, n_points], its score is the score read, and every value
    of the range has its score in the list. *)
Lemma sweep_positions (start : Z) (select : list float -> result nat)
  (n_points : Z) (o : Sweep.outcome) :
  Sweep.sweep construct metric start select n_points X_train y_train X y
  = OK o ->
  length (Sweep.scores o) = Z.to_nat (n_points + 1 - start) /\
  Sweep.value_at_best o = (start + Z.of_nat (Sweep.best o))%Z /\
  (start <= Sweep.value_at_best o <= n_points)%Z /\
  Sweep.evaluate construct metric X_train y_train X y
    (Sweep.value_at_best o) = OK (Sweep.score_at_best o) /\
  forall k, (start <= k <= n_points)%Z ->
    exists s,
      Sweep.evaluate construct metric X_train y_train X y k = OK s /\
      nth_error (Sweep.scores o) (Z.to_nat (k - start)) = Some s.
Proof.
  intros H. destruct (sweep_fields _ _ _ _ H) as (Hc & _ & Hk & Ha).
  pose proof (comprehension_length _ _ _ Hc) as Hlen.
  rewrite length_np_arange in Hlen.
  assert (Hv : Sweep.value_at_best o = (start + Z.of_nat (Sweep.best o))%Z
               /\ (Sweep.best o < Z.to_nat (n_points + 1 - start))%nat).
  { rewrite nth_error_np_arange in Hk.
    destruct (Nat.ltb_spec (Sweep.best o) (Z.to_nat (n_points + 1 - start)));
      [|discriminate].
    injection Hk as <-. now split. }
  destruct Hv as [Hv Hb].
  split; [exact Hlen|]. split; [exact Hv|]. split; [lia|]. split.
  - destruct (comprehension_nth _ _ _ _ _ Hc Hk) as (v & Hv' & Hn).
    congruence.
  - intros k Hrange.
    apply (comprehension_nth _ _ _ (Z.to_nat (k - start)) k Hc).
    rewrite nth_error_np_arange.
    destruct (Nat.ltb_spec (Z.to_nat (k - start))
                (Z.to_nat (n_points + 1 - start))); [|lia].
    f_equal. lia.
Qed.

(** Picked by [np.argmax]: no value scores higher, smaller values score
    strictly lower. *)
Lemma sweep_argmax (start n_points : Z) (o : Sweep.outcome) :
  Sweep.sweep construct metric start np_argmax n_points X_train y_train X y
  = OK o ->
  Forall finite (Sweep.scores o) ->
  forall k, (start <= k <= n_points)%Z ->
    exists s,
      Sweep.evaluate construct metric X_train y_train X y k = OK s /\
      fle s (Sweep.score_at_best o) = true /\
      ((k < Sweep.value_at_best o)%Z ->
       fle (Sweep.score_at_best o) s = false).
Proof.
  intros H Hfin k Hk.
  destruct (sweep_fields _ _ _ _ H) as (_ & Hsel & _ & Ha).
  destruct (sweep_positions _ _ _ _ H) as (_ & Hv & _ & _ & Hall).
  destruct (Hall k Hk) as (s & Hs & Hn). exists s. split; [exact Hs|].
  assert (Hne : Sweep.scores o <> []).
  { intros E. rewrite E in Hsel. discriminate. }
  destruct (np_argmax_spec _ Hne Hfin) as (r & b & Hr & Hb & Hmax).
  rewrite Hsel in Hr. injection Hr as <-.
  rewrite Ha in Hb. injection Hb as <-.
  destruct (Hmax _ _ Hn) as [H1 H2]. split; [exact H1|].
  intros Hlt. apply H2. lia.
Qed.

(** Picked by [np.argmin]: no value scores lower, smaller values score
    strictly higher. *)
Lemma sweep_argmin (start n_points : Z) (o : Sweep.outcome) :
  Sweep.sweep construct metric start np_argmin n_points X_train y_train X y
  = OK o ->
  Forall finite (Sweep.scores o) ->
  forall k, (start <= k <= n_points)%Z ->
    exists s,
      Sweep.evaluate construct metric X_train y_train X y k = OK s /\
      fle (Sweep.score_at_best o) s = true /\
      ((k < Sweep.value_at_best o)%Z ->
       fle s (Sweep.score_at_best o) = false).
Proof.
  intros H Hfin k Hk.
  destruct (sweep_fields _ _ _ _ H) as (_ & Hsel & _ & Ha).
  destruct (sweep_positions _ _ _ _ H) as (_ & Hv & _ & _ & Hall).
  destruct (Hall k Hk) as (s & Hs & Hn). exists s. split; [exact Hs|].
  assert (Hne : Sweep.scores o <> []).
  { intros E. rewrite E in Hsel. discriminate. }
  destruct (np_argmin_spec _ Hne Hfin) as (r & b & Hr & Hb & Hmin).
  rewrite Hsel in Hr. injection Hr as <-.
  rewrite Ha in Hb. injection Hb as <-.
  destruct (Hmin _ _ Hn) as [H1 H2]. split; [exact H1|].
  intros Hlt. apply H2. lia.
Qed.

(** X15: in the kNN notebook [best_k] is a position, not a neighbourhood
    size: the size the plot reports is [best_k + 1], it lies in
    [1, n_points], and the accuracy read with it is that size's accuracy.
    When the accuracies are numbers no size does better and every smaller
    size does strictly worse. *)
Theorem knn_sweep_selects (n_points : Z) (o : Sweep.outcome) :
  Sweep.knn_sweep construct metric n_points X_train y_train X y = OK o ->
  length (Sweep.scores o) = Z.to_nat n_points /\
  Sweep.value_at_best o = (Z.of_nat (Sweep.best o) + 1)%Z /\
  (1 <= Sweep.value_at_best o <= n_points)%Z /\
  Sweep.evaluate construct metric X_train y_train X y
    (Sweep.value_at_best o) = OK (Sweep.score_at_best o) /\
  (Forall finite (Sweep.scores o) ->
   forall k, (1 <= k <= n_points)%Z ->
     exists s,
       Sweep.evaluate construct metric X_train y_train X y k = OK s /\
       fle s (Sweep.score_at_best o) = true /\
       ((k < Sweep.value_at_best o)%Z ->
        fle (Sweep.score_at_best o) s = false)).
Proof.
  unfold Sweep.knn_sweep. intros H.
  destruct (sweep_positions _ _ _ _ H) as (Hlen & Hv & Hr & He & _).
  split; [rewrite Hlen; f_equal; lia|]. split; [lia|].
  split; [exact Hr|]. split; [exact He|].
  intros Hfin. now apply sweep_argmax.
Qed.

(** X16: the CART regression sweep picks, among the values 2, ...,
    n_points of [min_samples_split], one with the lowest error and, of
    these, the smallest: the value reported is [best_split + 2], no value
    has a lower error, and every smaller value has a strictly higher one
    (errors that are numbers). *)
Theorem cart_regression_sweep_selects (n_points : Z) (o : Sweep.outcome) :
  Sweep.cart_regression_sweep construct metric n_points X_train y_train X y
  = OK o ->
  length (Sweep.scores o) = Z.to_nat (n_points - 1) /\
  Sweep.value_at_best o = (Z.of_nat (Sweep.best o) + 2)%Z /\
  (2 <= Sweep.value_at_best o <= n_points)%Z /\
  Sweep.evaluate construct metric X_train y_train X y
    (Sweep.value_at_best o) = OK (Sweep.score_at_best o) /\
  (Forall finite (Sweep.scores o) ->
   forall k, (2 <= k <= n_points)%Z ->
     exists s,
       Sweep.evaluate construct metric X_train y_train X y k = OK s /\
       fle (Sweep.score_at_best o) s = true /\
       ((k < Sweep.value_at_best o)%Z ->
        fle s (Sweep.score_at_best o) = false)).
Proof.
  unfold Sweep.cart_regression_sweep. intros H.
  destruct (sweep_positions _ _ _ _ H) as (Hlen & Hv & Hr & He & _).
  split; [rewrite Hlen; f_equal; lia|]. split; [lia|].
  split; [exact Hr|]. split; [exact He|].
  intros Hfin. now apply sweep_argmin.
Qed.

(** X17: the CART classification sweep picks, among the values 2, ...,
    n_points of [min_samples_split], one with the highest accuracy and, of
    these, the smallest; the value reported is [best_split + 2]. *)
Theorem cart_classification_sweep_selects (n_points : Z)
  (o : Sweep.outcome) :
  Sweep.cart_classification_sweep construct metric n_points X_train y_train
    X y = OK o ->
  length (Sweep.scores o) = Z.to_nat (n_points - 1) /\
  Sweep.value_at_best o = (Z.of_nat (Sweep.best o) + 2)%Z /\
  (2 <= Sweep.value_at_best o <= n_points)%Z /\
  Sweep.evaluate construct metric X_train y_train X y
    (Sweep.value_at_best o) = OK (Sweep.score_at_best o) /\
  (Forall finite (Sweep.scores o) ->
   forall k, (2 <= k <= n_points)%Z ->
     exists s,
       Sweep.evaluate construct metric X_train y_train X y k = OK s /\
       fle s (Sweep.score_at_best o) = true /\
       ((k < Sweep.value_at_best o)%Z ->
        fle (Sweep.score_at_best o) s = false)).
Proof.
  unfold Sweep.cart_classification_sweep. intros H.
  destruct (sweep_positions _ _ _ _ H) as (Hlen & Hv & Hr & He & _).
  split; [rewrite Hlen; f_equal; lia|]. split; [lia|].
  split; [exact Hr|]. split; [exact He|].
  intros Hfin. now apply sweep_argmax.
Qed.

End Sweep_facts.




(** Thresholds 1 to 5 on five points whose true threshold is 3. *)
Lemma knn_sweep_selects_witness :
  Sweep.value_at_best
    {| Sweep.scores := [Fin (3 # 5); Fin (4 # 5); Fin (5 # 5); Fin (4 # 5);
                        Fin (3 # 5)];
       Sweep.best := 2; Sweep.value_at_best := 3;
       Sweep.score_at_best := Fin (5 # 5) |} = (Z.of_nat 2 + 1)%Z.
Proof.
  exact (proj1 (proj2 (knn_sweep_selects (M := Sweep.Threshold)
                         (fun k => k) Sweep.accuracy [] []
                         [1; 2; 3; 4; 5]%Z [0; 0; 1; 1; 1]%Z 5
                         {| Sweep.scores :=
                              [Fin (3 # 5); Fin (4 # 5); Fin (5 # 5);
                               Fin (4 # 5); Fin (3 # 5)];
                            Sweep.best := 2; Sweep.value_at_best := 3;
                            Sweep.score_at_best := Fin (5 # 5) |}
                         eq_refl))).
Defined.

Lemma cart_regression_sweep_selects_witness :
  Sweep.value_at_best
    {| Sweep.scores := [Fin (1 # 5); Fin (0 # 5); Fin (1 # 5); Fin (2 # 5)];
       Sweep.best := 1; Sweep.value_at_best := 3;
       Sweep.score_at_best := Fin (0 # 5) |} = (Z.of_nat 1 + 2)%Z.
Proof.
  exact (proj1 (proj2 (cart_regression_sweep_selects (M := Sweep.Threshold)
                         (fun k => k) Sweep.misses [] []
                         [1; 2; 3; 4; 5]%Z [0; 0; 1; 1; 1]%Z 5
                         {| Sweep.scores :=
                              [Fin (1 # 5); Fin (0 # 5); Fin (1 # 5);
                               Fin (2 # 5)];
                            Sweep.best := 1; Sweep.value_at_best := 3;
                            Sweep.score_at_best := Fin (0 # 5) |}
                         eq_refl))).
Defined.

Lemma cart_classification_sweep_selects_witness :
  Sweep.value_at_best
    {| Sweep.scores := [Fin (4 # 5); Fin (5 # 5); Fin (4 # 5); Fin (3 # 5)];
       Sweep.best := 1; Sweep.value_at_best := 3;
       Sweep.score_at_best := Fin (5 # 5) |} = (Z.of_nat 1 + 2)%Z.
Proof.
  exact (proj1 (proj2 (cart_classification_sweep_selects
                         (M := Sweep.Threshold)
                         (fun k => k) Sweep.accuracy [] []
                         [1; 2; 3; 4; 5]%Z [0; 0; 1; 1; 1]%Z 5
                         {| Sweep.scores :=
                              [Fin (4 # 5); Fin (5 # 5); Fin (4 # 5);
                               Fin (3 # 5)];
                            Sweep.best := 1; Sweep.value_at_best := 3;
                            Sweep.score_at_best := Fin (5 # 5) |}
                         eq_refl))).
Defined.

(** ** The panels of the comparison figures *)

(** X19: the panel of the [i]-th setting lies inside the 2 by 3 grid exactly
    when [i < 6], and then [3 * r + c = i], so different settings are drawn
    on different panels; from the seventh setting on, [ax[r, c]] raises
    [IndexError].  A list of at most six settings therefore never fails on
    its panels and a longer one always does. *)
Theorem panels_of_settings {A : Type} (settings : list A) :
  (forall i, (i < 6)%nat ->
     exists r c, Sweep.panel i = OK (r, c) /\ (r < 2)%nat /\ (c < 3)%nat /\
                 (3 * r + c = i)%nat) /\
  (forall i, (6 <= i)%nat -> Sweep.panel i = Err IndexError) /\
  (forall i j p, Sweep.panel i = OK p -> Sweep.panel j = OK p -> i = j) /\
  ((length settings <= 6)%nat ->
     exists ps, Sweep.panels settings = OK ps /\
                length ps = length settings /\ NoDup ps) /\
  ((6 < length settings)%nat -> Sweep.panels settings = Err IndexError).
Proof.
  assert (Hin : forall i, (i < 6)%nat ->
            exists r c, Sweep.panel i = OK (r, c) /\ (r < 2)%nat /\
                        (c < 3)%nat /\ (3 * r + c = i)%nat).
  { intros i Hi. exists (i / 3)%nat, (i mod 3)%nat.
    assert (Hr : (i / 3 < 2)%nat) by (apply Nat.Div0.div_lt_upper_bound; lia).
    assert (Hc : (i mod 3 < 3)%nat) by (apply Nat.mod_upper_bound; lia).
    unfold Sweep.panel, Sweep.ax_getitem.
    destruct (Nat.ltb_spec (i / 3) 2), (Nat.ltb_spec (i mod 3) 3); try lia.
    repeat split; auto. symmetry. apply Nat.div_mod_eq. }
  assert (Hout : forall i, (6 <= i)%nat -> Sweep.panel i = Err IndexError).
  { intros i Hi. unfold Sweep.panel, Sweep.ax_getitem.
    assert (Hr : (2 <= i / 3)%nat)
      by (apply (Nat.div_le_lower_bound i 3 2); lia).
    destruct (Nat.ltb_spec (i / 3) 2); [lia|reflexivity]. }
  assert (Hinj : forall i j p,
            Sweep.panel i = OK p -> Sweep.panel j = OK p -> i = j).
  { intros i j p Hi Hj.
    destruct (Nat.lt_ge_cases i 6) as [Hi6|Hi6];
      [|rewrite (Hout i Hi6) in Hi; discriminate].
    destruct (Nat.lt_ge_cases j 6) as [Hj6|Hj6];
      [|rewrite (Hout j Hj6) in Hj; discriminate].
    destruct (Hin i Hi6) as (r & c & Hp & _ & _ & Hrc).
    destruct (Hin j Hj6) as (r' & c' & Hp' & _ & _ & Hrc').
    rewrite Hi in Hp. rewrite Hj in Hp'. injection Hp as ->.
    injection Hp' as <- <-. lia. }
  split; [exact Hin|]. split; [exact Hout|]. split; [exact Hinj|]. split.
  - intros Hlen. unfold Sweep.panels.
    destruct (comprehension_total Sweep.panel (seq 0 (length settings)))
      as (ps & Hps).
    { intros i Hi. apply in_seq in Hi.
      destruct (Hin i ltac:(lia)) as (r & c & Hp & _). now exists (r, c). }
    exists ps. split; [exact Hps|].
    pose proof (comprehension_length _ _ _ Hps) as Hl.
    rewrite length_seq in Hl. split; [exact Hl|].
    apply (proj2 (NoDup_nth_error ps)). intros i j Hi Hij.
    destruct (nth_error ps i) as [p|] eqn:Hpi;
      [|apply nth_error_None in Hpi; lia].
    assert (Hj : (j < length ps)%nat).
    { apply nth_error_Some. rewrite <- Hij. discriminate. }
    assert (Hget : forall n p', (n < length ps)%nat ->
              nth_error ps n = Some p' -> Sweep.panel n = OK p').
    { intros n p' Hn Hn'.
      destruct (comprehension_nth Sweep.panel _ _ n n Hps) as (v & Hv & Hv').
      - rewrite nth_error_seq.
        destruct (Nat.ltb_spec n (length settings)); [reflexivity|lia].
      - congruence. }
    apply (Hinj i j p); [now apply Hget|].
    apply Hget; [exact Hj|now symmetry].
  - intros Hlen. unfold Sweep.panels.
    apply comprehension_first_error. exists 6%nat, 6%nat.
    split; [|split].
    + rewrite nth_error_seq.
      destruct (Nat.ltb_spec 6 (length settings)); [reflexivity|lia].
    + reflexivity.
    + intros m x' Hm Hx'.
      rewrite nth_error_seq in Hx'.
      destruct (Nat.ltb_spec m (length settings)); [|discriminate].
      injection Hx' as <-. simpl.
      destruct (Hin m Hm) as (r & c & Hp & _). now exists (r, c).
Qed.

(** The six neighbourhood sizes of the kNN notebook, with n_points = 50. *)
Lemma panels_of_settings_witness :
  exists ps,
    Sweep.panels [1; 3; 5; 10; 20; 50]%Z = OK ps /\
    length ps = length [1; 3; 5; 10; 20; 50]%Z /\ NoDup ps.
Proof.
  exact (proj1 (proj2 (proj2 (proj2
           (panels_of_settings [1; 3; 5; 10; 20; 50]%Z)))) ltac:(simpl; lia)).
Defined.

(** * The evaluator's aggregate, its empty partitions, and the search's
      selection and fairness *)

(** A comprehension returns a list exactly when the body returns that
    list's entry for every element. *)
Lemma comprehension_ok_iff {A B : Type} (f : A -> result B) (xs : list A)
  (vs : list B) (d : B) :
  comprehension f xs = OK vs <->
  length vs = length xs /\
  forall n x, nth_error xs n = Some x -> f x = OK (nth n vs d).
Proof.
  split.
  - intros H. split; [exact (comprehension_length _ _ _ H)|].
    intros n x Hn.
    destruct (comprehension_nth _ _ _ _ _ H Hn) as (v & Hv & Hnth).
    rewrite Hv. f_equal. symmetry. now apply nth_error_nth.
  - revert vs. induction xs as [|x xs IH]; intros vs [Hlen Hall].
    + destruct vs; [reflexivity|discriminate].
    + destruct vs as [|v vs]; [discriminate|]. simpl.
      rewrite (Hall 0%nat x eq_refl). simpl.
      rewrite (IH vs); [reflexivity|].
      split; [simpl in Hlen; lia|].
      intros n x' Hn. exact (Hall (S n) x' Hn).
Qed.

Lemma comprehension_py_range_ok_iff {B : Type} (g : Z -> result B) (K : Z)
  (vs : list B) (d : B) :
  comprehension g (py_range K) = OK vs <->
  length vs = Z.to_nat K /\
  forall f, (0 <= f < K)%Z -> g f = OK (nth (Z.to_nat f) vs d).
Proof.
  rewrite (comprehension_ok_iff g (py_range K) vs d), length_py_range.
  split; intros [Hlen Hall]; (split; [exact Hlen|]).
  - intros f Hf. apply Hall. now apply nth_error_py_range.
  - intros n x Hn.
    destruct (nth_error_py_range_inv K n x Hn) as [-> Hr].
    rewrite <- (Nat2Z.id n) at 2. apply Hall. exact Hr.
Qed.

(** ** Empty test partitions *)

(** C8, as the code has it: the loop of cell f6eda8ee has no guard for an
    empty test partition and never ends in [EmptyPartitionError].  The
    round of a fold without test rows is the estimator's [fit] on the
    training rows followed by its [score] on no rows.  The loop raises [e]
    exactly when some round raises [e] after all earlier rounds returned,
    and it returns [perf] exactly when every round returns its entry of
    [perf]: so the score of such a fold is what [score] returns on the
    empty partition, and an exception of that call ends the run.  With as
    many folds as instances (leave-one-out) every test partition holds
    exactly one instance. *)
Theorem no_empty_partition_guard {fv tgt : Type} {LR : Estimator fv tgt}
  (LinearRegression : unit -> estimator) (rng : bitgen) (K : Z)
  (X : list fv) (y : list tgt) :
  length y = length X ->
  cross_validation LinearRegression rng K X y <> Err EmptyPartitionError /\
  (forall fold, length fold = length X ->
     let round := fun f =>
       fit_and_score (LinearRegression tt)
         (training_rows fold f X) (test_rows fold f X)
         (training_rows fold f y) (test_rows fold f y) in
     (forall f, test_rows fold f X = [] ->
        round f
        = (mdl <- call (fit (LinearRegression tt)
                          (training_rows fold f X) (training_rows fold f y)) ;;
           call (score mdl [] []))) /\
     (forall e,
        cross_validate LinearRegression K fold X y = Err e <->
        exists f, (0 <= f < K)%Z /\ round f = Err e /\
          forall f', (0 <= f' < f)%Z -> exists s, round f' = OK s) /\
     (forall perf,
        cross_validate LinearRegression K fold X y = OK perf <->
        length perf = Z.to_nat K /\
        forall f, (0 <= f < K)%Z -> round f = OK (nth (Z.to_nat f) perf NaN)))
  /\
  (K = Z.of_nat (length X) ->
     exists fold,
       fold_assignment rng K (length X) = OK fold /\
       forall f, (0 <= f < K)%Z ->
         length (test_rows fold f X) = 1%nat /\
         length (test_rows fold f y) = 1%nat).
Proof.
  intros Hy. split; [|split].
  - intros H.
    now apply (python_only_cross_validation LinearRegression) in H.
  - intros fold HX round.
    assert (Hloop : cross_validate LinearRegression K fold X y
                    = comprehension round (py_range K)).
    { unfold cross_validate. rewrite cv_loop_comprehension by assumption.
      fold round. destruct (comprehension round (py_range K)); reflexivity. }
    split; [|split].
    + intros f Hempty. unfold round, fit_and_score.
      assert (Hyempty : test_rows fold f y = []).
      { apply length_zero_iff_nil.
        rewrite (test_rows_same_length fold f y X) by congruence.
        now rewrite Hempty. }
      now rewrite Hempty, Hyempty.
    + intros e. rewrite Hloop. apply comprehension_py_range_first_error.
    + intros perf. rewrite Hloop. apply comprehension_py_range_ok_iff.
  - intros ->. destruct (length X) as [|n] eqn:HN.
    + exists []. split; [reflexivity|]. intros f Hf. simpl in Hf. lia.
    + rewrite <- HN in *. set (N := length X) in *.
      exists (rng_shuffle rng (labels (Z.of_nat N) N)).
      split; [apply fold_assignment_nonzero; lia|].
      intros f Hf.
      assert (Hlen : length (rng_shuffle rng (labels (Z.of_nat N) N)) = N).
      { rewrite <- (Permutation_length (rng_shuffle_perm rng _)).
        apply length_labels. }
      rewrite !length_test_rows by (unfold N in *; congruence).
      split; apply (leave_one_out_sizes N); auto using rng_shuffle_perm.
Qed.

(** Two instances in three folds, fold 2 without test rows: the regressor
    that accepts no rows is scored on the empty partition and the run
    returns three scores. *)
Lemma no_empty_partition_guard_witness :
  test_rows [1; 0]%Z 2 [1; 2] = [] /\
  cross_validate (LR := Toy.LenientRegressor) (fun _ => None) 3 [1; 0]%Z
    [1; 2] [2; 4] = OK [Fin (-4 # 1); Fin (-4 # 1); Fin 0].
Proof.
  split; [reflexivity|].
  destruct (no_empty_partition_guard (LR := Toy.LenientRegressor)
              (fun _ => None) (fun _ => 0%nat) 3 [1; 2] [2; 4] eq_refl)
    as (_ & Hloop & _).
  destruct (Hloop [1; 0]%Z eq_refl) as (_ & _ & Hok).
  apply (proj2 (Hok [Fin (-4 # 1); Fin (-4 # 1); Fin 0])).
  split; [reflexivity|]. intros f Hf.
  assert (Hcases : f = 0%Z \/ f = 1%Z \/ f = 2%Z) by lia.
  destruct Hcases as [-> | [-> | ->]]; reflexivity.
Defined.

(** C8 as stated fails: two instances in three folds leave fold 2 without
    test rows; the run then ends in the estimator's own [ValueError] when the
    estimator validates its input, and in three scores when it does not. *)
Lemma empty_test_partition_is_scored :
  fold_assignment (fun _ => 0%nat) 3 2 = OK [1; 0]%Z /\
  test_rows [1; 0]%Z 2 [1; 2] = [] /\
  cross_validation (LR := Toy.MeanRegressor) (fun _ => None)
    (fun _ => 0%nat) 3 [1; 2] [2; 4] = Err ValueError /\
  cross_validation (LR := Toy.MeanRegressor) (fun _ => None)
    (fun _ => 0%nat) 3 [1; 2] [2; 4] <> Err EmptyPartitionError /\
  cross_validation (LR := Toy.LenientRegressor) (fun _ => None)
    (fun _ => 0%nat) 3 [1; 2] [2; 4]
  = OK ([Fin (-4 # 1); Fin (-4 # 1); Fin 0], Fin (-2667 # 1000)).
Proof. repeat split; try reflexivity; discriminate. Qed.

(** ** The reported aggregate *)





(** ** Fairness and selection of the search *)

(** With a fold array and candidates whose cross validations all return,
    the search returns, and its table holds each candidate's aggregate over
    that one array. *)
Lemma search_returns_table {fv tgt : Type} {KNN : Estimator fv tgt}
  {SS : Standardiser fv} (KNeighborsRegressor : Z -> estimator)
  (rng : bitgen) (K : Z) (candidates : list Z) (X : list fv) (y : list tgt)
  (fold : list Z) :
  length y = length X ->
  fold_assignment rng K (length X) = OK fold ->
  candidates <> [] ->
  (forall k, In k candidates ->
     exists s, candidate_score (KNeighborsRegressor k) K fold X y = OK s) ->
  exists r,
    hyperparameter_search KNeighborsRegressor rng K candidates X y = OK r /\
    length (neighbourhood_perf r) = length candidates /\
    (forall n k, nth_error candidates n = Some k ->
       exists s,
         candidate_score (KNeighborsRegressor k) K fold X y = OK s /\
         nth_error (neighbourhood_perf r) n = Some s) /\
    In (best_k r) candidates.
Proof.
  intros Hy Hfold Hne Hall.
  pose proof (fold_assignment_length _ _ _ _ Hfold) as HX.
  destruct (comprehension_total
              (fun k => candidate_score (KNeighborsRegressor k) K fold X y)
              candidates Hall) as (ms & Hms).
  destruct (select_best_returns candidates ms Hne
              (comprehension_length _ _ _ Hms)) as (r & Hr & Hin).
  destruct (select_best_fields _ _ _ Hr) as (Hn & _).
  exists r. split.
  - unfold hyperparameter_search. rewrite Hfold. simpl.
    rewrite search_with_scores by assumption. now rewrite Hms.
  - rewrite Hn. split; [exact (comprehension_length _ _ _ Hms)|].
    split; [|exact Hin].
    intros n k Hk. exact (comprehension_nth _ _ _ _ _ Hms Hk).
Qed.

(** C5: the fold array is built once, before the candidate loop, and every
    candidate is evaluated over that one array.  So for two candidates whose
    estimators behave alike on all data (fit and then score give the same
    outcome): evaluating either of them in the candidate loop has the same
    outcome, scores or exception, from any state of the scaler; whenever
    every candidate's cross validation returns the search returns, and its
    table holds each candidate's aggregate over the run's one fold array,
    with the same aggregate for the two candidates. *)
Theorem identical_candidates_score_alike {fv tgt : Type}
  {KNN : Estimator fv tgt} {SS : Standardiser fv}
  (KNeighborsRegressor : Z -> estimator) (rng : bitgen) (K : Z)
  (candidates : list Z) (X : list fv) (y : list tgt)
  (i j : nat) (k1 k2 : Z) :
  length y = length X ->
  nth_error candidates i = Some k1 ->
  nth_error candidates j = Some k2 ->
  (forall X_train X_test y_train y_test,
     fit_and_score (KNeighborsRegressor k1) X_train X_test y_train y_test
     = fit_and_score (KNeighborsRegressor k2) X_train X_test y_train y_test)
  ->
  (forall fold,
     candidate_score (KNeighborsRegressor k1) K fold X y
     = candidate_score (KNeighborsRegressor k2) K fold X y) /\
  (forall fold scaler scaler' nperf,
     length fold = length X ->
     scores_of (candidate_loop KNeighborsRegressor X y fold K [k1]
                  scaler nperf)
     = scores_of (candidate_loop KNeighborsRegressor X y fold K [k2]
                    scaler' nperf)) /\
  (forall fold,
     fold_assignment rng K (length X) = OK fold ->
     (forall k, In k candidates ->
        exists s,
          candidate_score (KNeighborsRegressor k) K fold X y = OK s) ->
     exists r s,
       hyperparameter_search KNeighborsRegressor rng K candidates X y = OK r
       /\
       (forall n k, nth_error candidates n = Some k ->
          exists s',
            candidate_score (KNeighborsRegressor k) K fold X y = OK s' /\
            nth_error (neighbourhood_perf r) n = Some s') /\
       nth_error (neighbourhood_perf r) i = Some s /\
       nth_error (neighbourhood_perf r) j = Some s) /\
  (forall r,
     hyperparameter_search KNeighborsRegressor rng K candidates X y = OK r ->
     exists fold,
       fold_assignment rng K (length X) = OK fold /\
       (forall n k, nth_error candidates n = Some k ->
          exists s,
            candidate_score (KNeighborsRegressor k) K fold X y = OK s /\
            nth_error (neighbourhood_perf r) n = Some s) /\
       exists s, nth_error (neighbourhood_perf r) i = Some s /\
                 nth_error (neighbourhood_perf r) j = Some s).
Proof.
  intros Hy Hi Hj Hsame.
  assert (Heq : forall fold,
            candidate_score (KNeighborsRegressor k1) K fold X y
            = candidate_score (KNeighborsRegressor k2) K fold X y).
  { intros fold. unfold candidate_score. f_equal. apply comprehension_ext.
    intros f. unfold standardised_round.
    destruct (call (learn _)) as [p|e]; simpl; [|reflexivity].
    destruct (call (rescale p (training_rows fold f X))) as [Ztr|e]; simpl;
      [|reflexivity].
    destruct (call (rescale p (test_rows fold f X))) as [Zte|e]; simpl;
      [|reflexivity].
    apply Hsame. }
  assert (Hpair : forall fold r,
            (forall n k, nth_error candidates n = Some k ->
               exists s,
                 candidate_score (KNeighborsRegressor k) K fold X y = OK s /\
                 nth_error (neighbourhood_perf r) n = Some s) ->
            exists s, nth_error (neighbourhood_perf r) i = Some s /\
                      nth_error (neighbourhood_perf r) j = Some s).
  { intros fold r Hall.
    destruct (Hall i k1 Hi) as (s1 & Hs1 & Hn1).
    destruct (Hall j k2 Hj) as (s2 & Hs2 & Hn2).
    exists s1. split; [exact Hn1|]. rewrite Hn2.
    specialize (Heq fold). congruence. }
  split; [exact Heq|]. split; [|split].
  - intros fold scaler scaler' nperf HX.
    rewrite !candidate_loop_scores by assumption. simpl.
    now rewrite (Heq fold).
  - intros fold Hfold Hall.
    assert (Hne : candidates <> []).
    { intros E. rewrite E in Hi. destruct i; discriminate. }
    destruct (search_returns_table KNeighborsRegressor rng K candidates X y
                fold Hy Hfold Hne Hall) as (r & Hr & _ & Htab & _).
    destruct (Hpair fold r Htab) as (s & Hsi & Hsj).
    exists r, s. auto.
  - intros r H.
    destruct (search_decompose KNeighborsRegressor rng K candidates X y r
                Hy H) as (fold & Hfold & Hlen & Hc & _).
    exists fold. split; [exact Hfold|].
    assert (Hall : forall n k, nth_error candidates n = Some k ->
              exists s, candidate_score (KNeighborsRegressor k) K fold X y
                        = OK s /\
                        nth_error (neighbourhood_perf r) n = Some s).
    { intros n k Hn. exact (comprehension_nth _ _ _ _ _ Hc Hn). }
    split; [exact Hall|]. exact (Hpair fold r Hall).
Qed.

(** Neighbourhood sizes 0 and 1 give the same toy estimator; searched with
    2, 3 and 5 over five rows in two folds they receive the same aggregate,
    -67/2. *)
Lemma identical_candidates_score_alike_witness :
  exists r s,
    hyperparameter_search (KNN := Toy.FirstK) (SS := Toy.Centre)
      Toy.FirstK_new (fun _ => 0%nat) 2 [0; 1; 2; 3; 5]%Z
      [1; 2; 3; 4; 5] [2; 4; 3; 9; 5] = OK r /\
    nth_error (neighbourhood_perf r) 0 = Some s /\
    nth_error (neighbourhood_perf r) 1 = Some s.
Proof.
  destruct (identical_candidates_score_alike (KNN := Toy.FirstK)
              (SS := Toy.Centre) Toy.FirstK_new (fun _ => 0%nat) 2
              [0; 1; 2; 3; 5]%Z [1; 2; 3; 4; 5] [2; 4; 3; 9; 5]
              0 1 0 1 eq_refl eq_refl eq_refl
              (fun _ _ _ _ => eq_refl))
    as (_ & _ & Hrun & _).
  destruct (Hrun [1; 0; 1; 0; 0]%Z eq_refl) as (r & s & Hr & _ & Hi & Hj).
  - intros k Hk. simpl in Hk.
    repeat (destruct Hk as [<-|Hk]; [eexists; reflexivity|]).
    contradiction.
  - exists r, s. auto.
Defined.

(** C4, as the code has it: the search takes no direction; it always
    applies [np.argmax].  When every candidate's cross validation returns,
    the search over a non-empty list returns.  When it returns and the
    aggregates are numbers, the selected candidate is the one at the first
    position of a largest aggregate: no aggregate exceeds [best_perf], every
    earlier one is strictly smaller, and the position is the one the
    specification's rule gives for "higher is better".  It is not the rule
    for "lower is better": there are aggregates on which that rule picks
    another position than the search does. *)
Theorem search_selects_first_maximum {fv tgt : Type}
  {KNN : Estimator fv tgt} {SS : Standardiser fv}
  (KNeighborsRegressor : Z -> estimator) (rng : bitgen) (K : Z)
  (candidates : list Z) (X : list fv) (y : list tgt) :
  length y = length X ->
  (forall fold,
     fold_assignment rng K (length X) = OK fold ->
     candidates <> [] ->
     (forall k, In k candidates ->
        exists s,
          candidate_score (KNeighborsRegressor k) K fold X y = OK s) ->
     exists r,
       hyperparameter_search KNeighborsRegressor rng K candidates X y = OK r
       /\
       forall n k, nth_error candidates n = Some k ->
         exists s,
           candidate_score (KNeighborsRegressor k) K fold X y = OK s /\
           nth_error (neighbourhood_perf r) n = Some s) /\
  (forall r,
     hyperparameter_search KNeighborsRegressor rng K candidates X y = OK r ->
     length (neighbourhood_perf r) = length candidates /\
     nth_error candidates (best_neighbourhood r) = Some (best_k r) /\
     nth_error (neighbourhood_perf r) (best_neighbourhood r)
     = Some (best_perf r) /\
     (Forall finite (neighbourhood_perf r) ->
        spec_select HigherIsBetter (neighbourhood_perf r)
        = Some (best_neighbourhood r) /\
        forall j s, nth_error (neighbourhood_perf r) j = Some s ->
          fle s (best_perf r) = true /\
          ((j < best_neighbourhood r)%nat ->
           fle (best_perf r) s = false))) /\
  (exists cands nperf r,
     select_best cands nperf = OK r /\ Forall finite nperf /\
     spec_select LowerIsBetter nperf <> Some (best_neighbourhood r)).
Proof.
  intros Hy. split; [|split].
  - intros fold Hfold Hne Hall.
    destruct (search_returns_table KNeighborsRegressor rng K candidates X y
                fold Hy Hfold Hne Hall) as (r & Hr & _ & Htab & _).
    exists r. split; [exact Hr|exact Htab].
  - intros r H.
    destruct (search_decompose KNeighborsRegressor rng K candidates X y r
                Hy H) as (fold & _ & _ & Hc & Hsel).
    destruct (select_best_fields _ _ _ Hsel) as (_ & Harg & Hk & Hp).
    split; [exact (comprehension_length _ _ _ Hc)|].
    split; [exact Hk|]. split; [exact Hp|].
    intros Hfin. split; [now apply np_argmax_is_spec_select|].
    assert (Hne : neighbourhood_perf r <> []).
    { intros E. rewrite E in Harg. discriminate. }
    destruct (np_argmax_spec _ Hne Hfin) as (r' & b & Hr' & Hb & Hmax).
    rewrite Harg in Hr'. injection Hr' as <-.
    rewrite Hp in Hb. injection Hb as <-. exact Hmax.
  - exists [1; 3; 5]%Z, [Fin (725 # 1000); Fin (825 # 1000); Fin (8 # 10)].
    eexists. split; [reflexivity|]. split.
    + repeat constructor.
    + simpl. discriminate.
Qed.

(** Over five rows in two folds the candidates 0, 1, 2, 3, 5 score -67/2,
    -67/2, -333/8, -303/8, -303/8: the first of the two largest, candidate
    0, is selected. *)
Lemma search_selects_first_maximum_witness :
  exists r,
    hyperparameter_search (KNN := Toy.FirstK) (SS := Toy.Centre)
      Toy.FirstK_new (fun _ => 0%nat) 2 [0; 1; 2; 3; 5]%Z
      [1; 2; 3; 4; 5] [2; 4; 3; 9; 5] = OK r /\
    spec_select HigherIsBetter (neighbourhood_perf r)
    = Some (best_neighbourhood r) /\
    nth_error [0; 1; 2; 3; 5]%Z (best_neighbourhood r) = Some (best_k r).
Proof.
  destruct (search_selects_first_maximum (KNN := Toy.FirstK)
              (SS := Toy.Centre) Toy.FirstK_new (fun _ => 0%nat) 2
              [0; 1; 2; 3; 5]%Z [1; 2; 3; 4; 5] [2; 4; 3; 9; 5] eq_refl)
    as (Hrun & Hsel & _).
  destruct (Hrun [1; 0; 1; 0; 0]%Z eq_refl ltac:(discriminate))
    as (r & Hr & Htab).
  - intros k Hk. simpl in Hk.
    repeat (destruct Hk as [<-|Hk]; [eexists; reflexivity|]).
    contradiction.
  - exists r. split; [exact Hr|].
    destruct (Hsel r Hr) as (_ & Hk & _ & Hmax).
    split; [|exact Hk].
    apply Hmax.
    assert (E : hyperparameter_search (KNN := Toy.FirstK) (SS := Toy.Centre)
                  Toy.FirstK_new (fun _ => 0%nat) 2 [0; 1; 2; 3; 5]%Z
                  [1; 2; 3; 4; 5] [2; 4; 3; 9; 5]
                = OK {| neighbourhood_perf :=
                          [Fin (-67 # 2); Fin (-67 # 2); Fin (-666 # 16);
                           Fin (-303 # 8); Fin (-303 # 8)];
                        best_neighbourhood := 0; best_k := 0;
                        best_perf := Fin (-67 # 2) |}) by reflexivity.
    rewrite E in Hr. injection Hr as <-. repeat constructor.
Defined.

(** C4 as stated fails.  On the specification's scenario, candidates 1, 3,
    5 with aggregates 0.725, 0.825, 0.8, the selection returns candidate 3
    whatever the caller wants, where "lower is better" asks for candidate 1
    at position 0.  A whole search over a given fold array shows the same:
    with aggregates -43/2, -149/8, -1055/72 for the candidates 1, 2, 3 it
    returns candidate 3. *)
Lemma search_ignores_direction :
  (r <- select_best [1; 3; 5]%Z
          [Fin (725 # 1000); Fin (825 # 1000); Fin (8 # 10)] ;;
   OK (best_neighbourhood r, best_k r))
  = OK (1%nat, 3%Z) /\
  spec_select LowerIsBetter
    [Fin (725 # 1000); Fin (825 # 1000); Fin (8 # 10)] = Some 0%nat /\
  (r <- search_with (KNN := Toy.FirstK) (SS := Toy.Centre)
          Toy.FirstK_new 2 [0; 1; 0; 0; 1]%Z [1; 2; 3]%Z
          [1; 2; 3; 4; 5] [2; 4; 3; 9; 5] ;;
   OK (neighbourhood_perf r, best_neighbourhood r, best_k r,
       spec_select LowerIsBetter (neighbourhood_perf r)))
  = OK ([Fin (-43 # 2); Fin (-298 # 16); Fin (-1055 # 72)],
        2%nat, 3%Z, Some 0%nat) /\
  Some 1%nat <> Some 0%nat /\ Some 2%nat <> Some 0%nat.
Proof. repeat split; try reflexivity; discriminate. Qed.
